(** * Show, Attend and Tell: the caption generator of [core/model.py]

    A shallow embedding of [CaptionGenerator] ([__init__], [build_model],
    [build_sampler]) and of the tensor operations it calls, followed by the
    properties of the two drivers.

    Tensors are nested lists over the scalars of a numeric engine: a vector
    is a [list scalar], an (N, K) matrix is the list of its N rows.  The
    engine (scalars, their arithmetic, the transcendental functions and the
    source of dropout randomness) is a type class, so every general theorem
    holds for any numeric engine; [REngine] instantiates it with the real
    numbers for the concrete runs. *)

From Stdlib Require Import List ZArith QArith Qreals Reals RMicromega Lra Lia Bool String Ascii.
From stdpp Require Import gmap strings.
Import ListNotations.

Local Open Scope nat_scope.
Local Open Scope string_scope.
Local Open Scope list_scope.

(** ** Errors and results *)

(** The exceptions a construction or a run can end with.  The first five
    are Python's own; [EngineError] is an error raised by the tensor engine,
    tagged with the operation that raised it. *)
Inductive error : Type :=
| ValueError (msg : string)
| KeyError (key : string)
| IndexError
| TypeError
| NameError (name : string)
| EngineError (op : string).

Inductive result (A : Type) : Type :=
| Ok (a : A)
| Err (e : error).
Arguments Ok {A} a.
Arguments Err {A} e.

Definition rbind {A B : Type} (c : result A) (k : A -> result B) : result B :=
  match c with
  | Ok a => k a
  | Err e => Err e
  end.

(** [mapM_result f l]: run [f] on every element, left to right, stopping at
    the first error. *)
Fixpoint mapM_result {A B : Type} (f : A -> result B) (l : list A) : result (list B) :=
  match l with
  | [] => Ok []
  | a :: l' => rbind (f a) (fun b => rbind (mapM_result f l') (fun bs => Ok (b :: bs)))
  end.

(** ** The numeric engine *)

Class Engine : Type := {
  scalar : Type;
  (** a Python float literal or configuration value, as a tensor constant *)
  sconst : Q -> scalar;
  sadd : scalar -> scalar -> scalar;
  ssub : scalar -> scalar -> scalar;
  smul : scalar -> scalar -> scalar;
  sdiv : scalar -> scalar -> scalar;
  stanh : scalar -> scalar;
  ssigmoid : scalar -> scalar;
  sexp : scalar -> scalar;
  slog : scalar -> scalar;
  (** the nonlinearity of the attention layer and of the plain cell *)
  sact_att : scalar -> scalar;
  sact_rnn : scalar -> scalar;
  (** strict comparison, used by argmax *)
  sltb : scalar -> scalar -> bool;
  (** the source of randomness and one Bernoulli draw from it:
      [keep p g] is [true] with probability [p] *)
  rng : Type;
  keep : Q -> rng -> bool * rng
}.

(** vectors, matrices (lists of rows) and rank-3 tensors *)
Abbreviation vec := (list scalar).
Abbreviation mat := (list (list scalar)).
Abbreviation ten3 := (list (list (list scalar))).

Module TF.
Section Ops.
Context {E : Engine}.


Definition s0 : scalar := sconst 0%Q.

(** [tf.to_float] of an integer *)
Definition to_float (n : nat) : scalar := sconst (inject_Z (Z.of_nat n)).

Fixpoint map2 {A B C : Type} (f : A -> B -> C) (l : list A) (m : list B) : list C :=
  match l, m with
  | a :: l', b :: m' => f a b :: map2 f l' m'
  | _, _ => []
  end.

(** sum of all entries, accumulated from the left starting at 0 *)
Definition ssum (v : vec) : scalar := fold_left sadd v s0.

Definition vadd (u v : vec) : vec := map2 sadd u v.
Definition vmul (u v : vec) : vec := map2 smul u v.
Definition vscale (a : scalar) (v : vec) : vec := map (smul a) v.
Definition dot (u v : vec) : scalar := ssum (vmul u v).

Definition ncols (W : mat) : nat := length (hd [] W).
Definition column (j : nat) (W : mat) : vec := map (fun row => nth j row s0) W.

(** a row vector times a matrix given by its rows *)
Definition vecmat (x : vec) (W : mat) : vec :=
  map (fun j => dot x (column j W)) (seq 0 (ncols W)).

(** [tf.matmul] *)
Definition matmul (X W : mat) : mat := map (fun x => vecmat x W) X.

Definition madd (X Y : mat) : mat := map2 vadd X Y.

(** a matrix plus a bias broadcast over the rows *)
Definition add_bias (X : mat) (b : vec) : mat := map (fun x => vadd x b) X.

(** [tf.nn.tanh] and the other element-wise maps *)
Definition mmap (f : scalar -> scalar) (X : mat) : mat := map (map f) X.
Definition tanh (X : mat) : mat := mmap stanh X.

(** element-wise sum of a list of vectors: [tf.reduce_sum] over the
    leading axis of a matrix *)
Definition sum_rows (rows : list vec) : vec :=
  match rows with
  | [] => []
  | r :: rs => fold_left vadd rs r
  end.

(** [tf.reduce_sum] of a whole matrix *)
Definition reduce_sum_all (X : mat) : scalar := ssum (map ssum X).

(** [tf.reduce_mean(features, 1)]: the mean over the L locations *)
Definition reduce_mean_1 (features : ten3) : mat :=
  map (fun f => map (fun s => sdiv s (to_float (length f))) (sum_rows f)) features.

(** [tf.nn.softmax] of one row *)
Definition softmax (v : vec) : vec :=
  let e := map sexp v in map (fun x => sdiv x (ssum e)) e.

(** [tf.argmax] of one row: the first index holding the greatest entry *)
Fixpoint argmax_from (best : scalar) (bi i : nat) (v : vec) : nat :=
  match v with
  | [] => bi
  | x :: v' => if sltb best x then argmax_from x i (S i) v'
               else argmax_from best bi (S i) v'
  end.

Definition argmax_row (v : vec) : nat :=
  match v with
  | [] => 0
  | x :: v' => argmax_from x 0 1 v'
  end.

(** [tf.argmax(logits, 1)] *)
Definition argmax (X : mat) : list Z := map (fun v => Z.of_nat (argmax_row v)) X.

(** [tf.fill([n], value)]: a Python [None] is no tensor value *)
Definition fill (n : nat) (value : option Z) : result (list Z) :=
  match value with
  | Some v => Ok (repeat v n)
  | None => Err (EngineError "fill")
  end.

(** [tf.transpose(tf.pack(l), (1, 0, 2))] and
    [tf.transpose(tf.pack(l), (1, 0))]: a list of T tensors with leading
    axis N becomes one tensor (N, T, ...).  Packing no tensor at all gives
    a tensor of rank 1, which this permutation does not fit. *)
Definition pack_transpose {A : Type} (l : list (list A)) : result (list (list A)) :=
  match l with
  | [] => Err (EngineError "transpose")
  | a :: _ =>
      Ok (map (fun n => flat_map (fun s => match nth_error s n with
                                           | Some x => [x]
                                           | None => []
                                           end) l)
            (seq 0 (length a)))
  end.

(** [tf.nn.dropout(x, keep_prob)]: every entry is divided by [keep_prob]
    and multiplied by a fresh 0/1 draw *)
Definition drop_entry (p : Q) (x : scalar) (g : rng) : scalar * rng :=
  let (b, g') := keep p g in
  (smul (sdiv x (sconst p)) (sconst (if b then 1 else 0)%Q), g').

Fixpoint dropout_vec (p : Q) (v : vec) (g : rng) : vec * rng :=
  match v with
  | [] => ([], g)
  | x :: v' =>
      let (y, g1) := drop_entry p x g in
      let (ys, g2) := dropout_vec p v' g1 in
      (y :: ys, g2)
  end.

Fixpoint dropout (X : mat) (p : Q) (g : rng) : mat * rng :=
  match X with
  | [] => ([], g)
  | v :: X' =>
      let (w, g1) := dropout_vec p v g in
      let (Y, g2) := dropout X' p g1 in
      (w :: Y, g2)
  end.

End Ops.
End TF.

Notation "'let*' x ':=' c 'in' k" := (rbind c (fun x => k))
  (at level 10, x name, c at level 100, k at level 200).

(** ** The layers of [layers.py] *)

Module layers.
Import TF.
Section Layers.
Context {E : Engine}.

(** Modelled from the spec: [affine_forward] of layers.py, the affine map
    [x W + b] of section 4.6. *)
Definition affine_forward (x : mat) (W : mat) (b : vec) : mat :=
  add_bias (matmul x W) b.

(** Modelled from the spec: [affine_sigmoid_forward] of layers.py, "affine
    map to a scalar followed by sigmoid" (section 4.4). *)
Definition affine_sigmoid_forward (x : mat) (W : mat) (b : vec) : mat :=
  mmap ssigmoid (affine_forward x W b).

(** Modelled from the spec: [word_embedding_forward] of layers.py, "row i is
    the embedding of vocabulary index i" (section 3); an index outside
    [0, V) has no row and is an error of the engine's lookup. *)
Definition embed (W_embed : mat) (i : Z) : result vec :=
  if (i <? 0)%Z then Err (EngineError "gather")
  else match nth_error W_embed (Z.to_nat i) with
       | Some row => Ok row
       | None => Err (EngineError "gather")
       end.

(** on a batch of word indices (N,) *)
Definition word_embedding_forward (x : list Z) (W_embed : mat) : result mat :=
  mapM_result (embed W_embed) x.

(** on a batch of index sequences (N, T) *)
Definition word_embedding_forward_seq (x : list (list Z)) (W_embed : mat)
  : result ten3 :=
  mapM_result (fun s => word_embedding_forward s W_embed) x.

(** Modelled from the spec: [project_feature] of layers.py, "a single linear
    map along the D axis (shared across L and N)" (section 4.2). *)
Definition project_feature (features : ten3) (W_proj_x : mat) : ten3 :=
  map (fun f => matmul f W_proj_x) features.

(** Modelled from the spec: [init_lstm] of layers.py, "two stacked
    affine+nonlinear (tanh) layers with optional dropout between/after"
    (section 4.1). *)
Definition init_lstm (features : mat) (W1 : mat) (b1 : vec) (W2 : mat) (b2 : vec)
    (use_dropout : bool) (g : rng) : mat * rng :=
  let h1 := tanh (affine_forward features W1 b1) in
  let (h1, g1) := if use_dropout then dropout h1 (1 # 2) g else (h1, g) in
  let h2 := tanh (affine_forward h1 W2 b2) in
  if use_dropout then dropout h2 (1 # 2) g1 else (h2, g1).

(** the call that leaves [dropout] at its default [False]: nothing is drawn *)
Definition init_lstm_default (features : mat) (W1 : mat) (b1 : vec) (W2 : mat)
    (b2 : vec) : mat :=
  tanh (affine_forward (tanh (affine_forward features W1 b1)) W2 b2).

(** Modelled from the spec: [attention_forward] of layers.py (section 4.3),
    for one example: the projected hidden state is added to every projected
    feature row, the nonlinearity is applied, the D axis is reduced with the
    learned vector, softmax over the L locations gives the weights and the
    context is the weighted sum of the feature rows. *)
Definition attention_one (f fp : mat) (hp : vec) (W_att : mat) : vec * vec :=
  let scores := map (fun row => dot (map sact_att (vadd row hp)) (column 0 W_att)) fp in
  let alpha := softmax scores in
  (sum_rows (map2 vscale alpha f), alpha).

Definition attention_forward (features features_proj : ten3) (prev_h : mat)
    (W_proj_h : mat) (b_proj : vec) (W_att : mat) : mat * mat :=
  let h_proj := affine_forward prev_h W_proj_h b_proj in
  split (map2 (fun ffp hp => attention_one (fst ffp) (snd ffp) hp W_att)
           (combine features features_proj) h_proj).

(** Modelled from the spec: [rnn_step_forward] of layers.py, the plain cell
    of section 4.5: "nonlinearity(affine combination of previous-word
    embedding, previous hidden state, and ContextVector, each via its own
    weight matrix, plus bias)". *)
Definition rnn_step_forward (x prev_h context : mat) (Wx Wh Wz : mat) (b : vec) : mat :=
  mmap sact_rnn
    (add_bias (madd (madd (matmul x Wx) (matmul prev_h Wh)) (matmul context Wz)) b).

(** Modelled from the spec: [lstm_step_forward] of layers.py, the gated cell
    of section 4.5: one fused affine map cut into four H-wide blocks (input,
    forget and output gates, candidate). *)
Definition lstm_row (H : nat) (a prev_c : vec) : vec * vec :=
  let i := map ssigmoid (firstn H a) in
  let f := map ssigmoid (firstn H (skipn H a)) in
  let o := map ssigmoid (firstn H (skipn (2 * H) a)) in
  let g := map stanh (firstn H (skipn (3 * H) a)) in
  let next_c := vadd (vmul f prev_c) (vmul i g) in
  (vmul o (map stanh next_c), next_c).

Definition lstm_step_forward (x prev_h prev_c context : mat) (Wx Wh Wz : mat)
    (b : vec) : mat * mat :=
  let a := add_bias (madd (madd (matmul x Wx) (matmul prev_h Wh)) (matmul context Wz)) b in
  split (map2 (lstm_row (length Wh)) a prev_c).

(** Modelled from the spec: [softmax_loss] of layers.py, the "masked softmax
    cross-entropy" of section 4.7, summed over the batch: "loss contribution
    is zero for masked/padding positions". *)
Definition cross_entropy (logits : vec) (y : Z) : scalar :=
  ssub s0 (slog (nth (Z.to_nat y) (softmax logits) s0)).

Definition masked_entropy (logits : vec) (ym : Z * bool) : scalar :=
  if snd ym then cross_entropy logits (fst ym) else s0.

Definition softmax_loss (logits : mat) (y : list Z) (mask : list bool) : scalar :=
  ssum (map2 masked_entropy logits (combine y mask)).

End Layers.
End layers.

(** ** The caption generator *)

Module CaptionGenerator.
Import TF layers.

(** The hyper parameters [__init__] stores in the instance. *)
Record Config : Type := {
  cell_type : string;
  word_to_idx : gmap string Z;
  prev2out : bool;
  ctx2out : bool;
  alpha_c : Q;
  selector : bool;
  use_dropout : bool;
  V : nat;
  L : nat;
  D : nat;
  M : nat;
  H : nat;
  T : nat;
  _null : Z;
  _start : option Z
}.

Definition dquote : string := String (ascii_of_nat 34) EmptyString.

(** ['Invalid cell_type "%s"' % cell_type] *)
Definition invalid_cell_type (c : string) : string :=
  "Invalid cell_type " ++ dquote ++ c ++ dquote.

(** [dim_mul = {'rnn': 1, 'lstm': 4}[cell_type]] *)
Definition dim_mul (c : string) : result nat :=
  if String.eqb c "rnn" then Ok 1
  else if String.eqb c "lstm" then Ok 4
  else Err (KeyError c).

(** [__init__], up to the creation of the variables and placeholders: the
    checks it makes and the hyper parameters it stores.  [n_time_step] is
    [None] by default, and [self.T + 1] of the caption placeholder needs a
    number. *)
Definition __init__ (word_to_idx : gmap string Z) (dim_feature : list nat)
    (dim_embed dim_hidden : nat) (n_time_step : option nat) (cell_type : string)
    (prev2out ctx2out : bool) (alpha_c : Q) (selector use_dropout : bool)
  : result Config :=
  if negb (String.eqb cell_type "rnn" || String.eqb cell_type "lstm")
  then Err (ValueError (invalid_cell_type cell_type))
  else
    match nth_error dim_feature 0 with
    | None => Err IndexError
    | Some L_ =>
    match nth_error dim_feature 1 with
    | None => Err IndexError
    | Some D_ =>
    match word_to_idx !! "<NULL>" with
    | None => Err (KeyError "<NULL>")
    | Some null =>
    let start := word_to_idx !! "<START>" in
    let* mul := dim_mul cell_type in
    match n_time_step with
    | None => Err TypeError
    | Some T_ =>
        Ok {| cell_type := cell_type; word_to_idx := word_to_idx;
              prev2out := prev2out; ctx2out := ctx2out; alpha_c := alpha_c;
              selector := selector; use_dropout := use_dropout;
              V := size word_to_idx; L := L_; D := D_; M := dim_embed;
              H := dim_hidden; T := T_; _null := null; _start := start |}
    end end end end.

Section Model.
Context {E : Engine}.

(** The variables [__init__] creates; the optimizer owns their values. *)
Record Weights : Type := {
  W_embed : mat;
  W1_init_h : mat; b1_init_h : vec; W2_init_h : mat; b2_init_h : vec;
  W1_init_c : mat; b1_init_c : vec; W2_init_c : mat; b2_init_c : vec;
  W_proj_x : mat; W_proj_h : mat; b_proj : vec; W_att : mat;
  Wx : mat; Wh : mat; Wz : mat; b : vec;
  W_ctx2out : mat;
  W_sel : mat; b_sel : vec;
  W1_decode : mat; b1_decode : vec; W2_decode : mat; b2_decode : vec
}.

Variable self : Config.
Variable w : Weights.

(** [beta * context]: the (N, 1) gate broadcast over the D axis *)
Definition gate (beta context : mat) : mat :=
  map2 (fun bt c => vscale (hd s0 bt) c) beta context.

(** lines 138-140 and 213-215: the selector gate *)
Definition select_context (prev_h context : mat) : mat :=
  if selector self
  then gate (affine_sigmoid_forward prev_h (W_sel w) (b_sel w)) context
  else context.

(** lines 142-149 and 217-224: the cell update; [None] when neither branch
    of the [if]/[elif] runs and the new state is never bound *)
Definition cell_forward (x prev_h prev_c context : mat) : option (mat * mat) :=
  if String.eqb (cell_type self) "rnn"
  then Some (rnn_step_forward x prev_h context (Wx w) (Wh w) (Wz w) (b w), prev_c)
  else if String.eqb (cell_type self) "lstm"
  then Some (lstm_step_forward x prev_h prev_c context (Wx w) (Wh w) (Wz w) (b w))
  else None.

(** lines 155-159 and 227-231: hidden-to-embed with the optional additions *)
Definition decode_logits (x h context : mat) : mat :=
  let logits := affine_forward h (W1_decode w) (b1_decode w) in
  let logits := if prev2out self then madd logits x else logits in
  if ctx2out self then madd logits (matmul context (W_ctx2out w)) else logits.

(** *** build_model *)

Record train_state : Type := {
  prev_h : mat;
  prev_c : mat;
  loss : scalar;
  alpha_list : list mat
}.

(** column [t] of an (N, T) array *)
Definition col {A : Type} (d : A) (t : nat) (a : list (list A)) : list A :=
  map (fun row => nth t row d) a.

(** lines 151-163: the decoder of the training graph *)
Definition train_decode (x next_h context : mat) (g : rng) : mat * rng :=
  let (next_h, g) := if use_dropout self then dropout next_h (1 # 2) g
                     else (next_h, g) in
  let logits := decode_logits x next_h context in
  let logits_h := tanh logits in
  let (logits_h, g) := dropout logits_h (1 # 2) g in
  (affine_forward logits_h (W2_decode w) (b2_decode w), g).

(** what one pass through the body of a driver's loop computes *)
Record forward_out : Type := {
  out_h : mat;
  out_c : mat;
  out_alpha : mat;
  out_logits : mat
}.

(** lines 134-163: attention, gate, cell and decoder of step [t] *)
Definition train_forward (features features_projected x : ten3) (t : nat)
    (sg : train_state * rng) : result (forward_out * rng) :=
  let (s, g) := sg in
  let (context, alpha) :=
    attention_forward features features_projected (prev_h s)
      (W_proj_h w) (b_proj w) (W_att w) in
  let context := select_context (prev_h s) context in
  let xt := col [] t x in
  match cell_forward xt (prev_h s) (prev_c s) context with
  | None => Err (NameError "next_h")
  | Some (next_h, next_c) =>
      let (logits_out, g) := train_decode xt next_h context g in
      Ok ({| out_h := next_h; out_c := next_c; out_alpha := alpha;
             out_logits := logits_out |}, g)
  end.

(** line 166: the loss of step [t] *)
Definition step_loss (captions_out : list (list Z)) (mask : list (list bool))
    (t : nat) (o : forward_out) : scalar :=
  softmax_loss (out_logits o) (col 0%Z t captions_out) (col false t mask).

(** the body of the loop of lines 133-166 *)
Definition train_step (features features_projected x : ten3)
    (captions_out : list (list Z)) (mask : list (list bool))
    (t : nat) (sg : train_state * rng) : result (train_state * rng) :=
  let* og := train_forward features features_projected x t sg in
  Ok ({| prev_h := out_h (fst og); prev_c := out_c (fst og);
         loss := sadd (loss (fst sg)) (step_loss captions_out mask t (fst og));
         alpha_list := alpha_list (fst sg) ++ [out_alpha (fst og)] |}, snd og).

(** a [for] loop over [ts] whose body can raise *)
Fixpoint for_loop {St : Type} (body : nat -> St -> result St) (ts : list nat)
    (s : St) : result St :=
  match ts with
  | [] => Ok s
  | t :: ts' => let* s1 := body t s in for_loop body ts' s1
  end.

(** lines 168-173: the doubly stochastic regularization *)
Definition alpha_reg (alpha_list : list mat) : result scalar :=
  let* alphas := pack_transpose alpha_list in
  let alphas_all := map sum_rows alphas in
  Ok (smul (sconst (alpha_c self))
        (reduce_sum_all
           (mmap (fun a => let d := ssub (sconst (16 # 196)) a in smul d d)
              alphas_all))).

Definition add_alpha_reg (s : train_state) : result scalar :=
  if Qlt_le_dec 0 (alpha_c self)
  then let* r := alpha_reg (alpha_list s) in Ok (sadd (loss s) r)
  else Ok (loss s).

(** line 118: [mask = tf.not_equal(captions_out, self._null)] *)
Definition caption_mask (captions_out : list (list Z)) : list (list bool) :=
  map (map (fun c => negb (c =? _null self)%Z)) captions_out.

(** lines 116-117 *)
Definition captions_in (captions : list (list Z)) : list (list Z) :=
  map (firstn (T self)) captions.
Definition captions_out (captions : list (list Z)) : list (list Z) :=
  map (skipn 1) captions.

(** lines 121-123: the initial state and what the initializers drew *)
Definition train_init (features : ten3) (g : rng) : train_state * rng :=
  let mean_features := reduce_mean_1 features in
  let (h0, g) := init_lstm mean_features (W1_init_h w) (b1_init_h w)
                   (W2_init_h w) (b2_init_h w) (use_dropout self) g in
  let (c0, g) := init_lstm mean_features (W1_init_c w) (b1_init_c w)
                   (W2_init_c w) (b2_init_c w) (use_dropout self) g in
  ({| prev_h := h0; prev_c := c0; loss := sconst 0; alpha_list := [] |}, g).

(** the state the loop of [build_model] ends in *)
Definition unroll (features : ten3) (captions : list (list Z)) (g : rng)
  : result (train_state * rng) :=
  let mask := caption_mask (captions_out captions) in
  let sg := train_init features g in
  let* x := word_embedding_forward_seq (captions_in captions) (W_embed w) in
  let features_projected := project_feature features (W_proj_x w) in
  for_loop (train_step features features_projected x (captions_out captions) mask)
    (seq 0 (T self)) sg.

(** lines 101-175, on the values of the two placeholders; the batches the
    placeholders accept are described by [training_feed] below *)
Definition build_model (features : ten3) (captions : list (list Z)) (g : rng)
  : result scalar :=
  let batch_size := length features in
  let* sg := unroll features captions g in
  let* total := add_alpha_reg (fst sg) in
  Ok (sdiv total (to_float batch_size)).

(** *** build_sampler *)

Record sample_state : Type := {
  sprev_h : mat;
  sprev_c : mat;
  sampled_word : option (list Z);
  sampled_word_list : list (list Z);
  salpha_list : list mat
}.

(** lines 204-207: the words embedded at step [t] *)
Definition sampler_words (batch_size : nat) (t : nat) (s : sample_state)
  : result (list Z) :=
  if Nat.eqb t 0 then fill batch_size (_start self)
  else match sampled_word s with
       | Some ws => Ok ws
       | None => Err (NameError "sampled_word")
       end.

(** lines 227-233: the decoder of the sampling graph *)
Definition sample_decode (x h context : mat) : mat :=
  let logits := decode_logits x h context in
  let logits_h := tanh logits in
  affine_forward logits_h (W2_decode w) (b2_decode w).

(** lines 204-207: the input embedding of step [t] *)
Definition sample_input (batch_size : nat) (t : nat) (s : sample_state)
  : result mat :=
  let* words := sampler_words batch_size t s in
  word_embedding_forward words (W_embed w).

Definition sample_forward (features features_projected : ten3) (t : nat)
    (s : sample_state) : result forward_out :=
  let* x := sample_input (length features) t s in
  let (context, alpha) :=
    attention_forward features features_projected (sprev_h s)
      (W_proj_h w) (b_proj w) (W_att w) in
  let context := select_context (sprev_h s) context in
  match cell_forward x (sprev_h s) (sprev_c s) context with
  | None => Err (NameError "h")
  | Some (h, c) =>
      Ok {| out_h := h; out_c := c; out_alpha := alpha;
            out_logits := sample_decode x h context |}
  end.

(** the body of the loop of lines 202-237 *)
Definition sample_step (features features_projected : ten3) (t : nat)
    (s : sample_state) : result sample_state :=
  let* o := sample_forward features features_projected t s in
  let word := argmax (out_logits o) in
  Ok {| sprev_h := out_h o; sprev_c := out_c o;
        sampled_word := Some word;
        sampled_word_list := sampled_word_list s ++ [word];
        salpha_list := salpha_list s ++ [out_alpha o] |}.

(** the state the sampler starts its loop in *)
Definition sample_init (features : ten3) : sample_state :=
  let mean_features := reduce_mean_1 features in
  {| sprev_h := init_lstm_default mean_features (W1_init_h w) (b1_init_h w)
                  (W2_init_h w) (b2_init_h w);
     sprev_c := init_lstm_default mean_features (W1_init_c w) (b1_init_c w)
                  (W2_init_c w) (b2_init_c w);
     sampled_word := None;
     sampled_word_list := [];
     salpha_list := [] |}.

(** the state the loop of [build_sampler] ends in *)
Definition sample_unroll (features : ten3) (max_len : nat) : result sample_state :=
  let features_projected := project_feature features (W_proj_x w) in
  for_loop (sample_step features features_projected) (seq 0 max_len)
    (sample_init features).

(** lines 178-241, on the value of the features placeholder; the features
    the placeholder accepts are described by [features_fit] below *)
Definition build_sampler (features : ten3) (max_len : nat)
  : result (list (list vec) * list (list Z)) :=
  let* s := sample_unroll features max_len in
  let* alphas := pack_transpose (salpha_list s) in
  let* sampled_captions := pack_transpose (sampled_word_list s) in
  Ok (alphas, sampled_captions).

End Model.
End CaptionGenerator.

(** An engine whose comparison is a strict order in which "not below" is
    transitive, as it is on numbers. *)
Class OrderedEngine (E : Engine) : Prop := {
  sltb_irrefl : forall a, sltb a a = false;
  sltb_asym : forall a b, sltb a b = true -> sltb b a = false;
  sltb_le_trans : forall a b c,
      sltb b a = false -> sltb c b = false -> sltb c a = false
}.

(** ** The real-number engine *)

Definition Rltb (a b : R) : bool := if Rlt_dec a b then true else false.

(** Scalars are real numbers; the randomness is the sequence of the draws to
    come. *)
#[export] Instance REngine : Engine := {|
  scalar := R;
  sconst := Q2R;
  sadd := Rplus;
  ssub := Rminus;
  smul := Rmult;
  sdiv := Rdiv;
  stanh := Rtrigo_def.tanh;
  ssigmoid := fun x => (1 / (1 + exp (- x)))%R;
  sexp := exp;
  slog := ln;
  sact_att := Rtrigo_def.tanh;
  sact_rnn := Rtrigo_def.tanh;
  sltb := Rltb;
  rng := nat -> bool;
  keep := fun _ g => (g 0, fun n => g (S n))
|}.

Import TF layers CaptionGenerator.

(** ** Shapes and small models *)

Section Shapes.
Context {E : Engine}.
Local Open Scope nat_scope.

Definition has_shape (r c : nat) (W : mat) : bool :=
  (length W =? r) && forallb (fun row => length row =? c) W.

(** the shapes lines 55-94 of [__init__] give the variables *)
Definition weights_shaped (self : Config) (w : Weights) : bool :=
  match dim_mul (cell_type self) with
  | Err _ => false
  | Ok mul =>
      has_shape (V self) (M self) (W_embed w)
      && has_shape (D self) (H self) (W1_init_h w) && (length (b1_init_h w) =? H self)
      && has_shape (H self) (H self) (W2_init_h w) && (length (b2_init_h w) =? H self)
      && has_shape (D self) (H self) (W1_init_c w) && (length (b1_init_c w) =? H self)
      && has_shape (H self) (H self) (W2_init_c w) && (length (b2_init_c w) =? H self)
      && has_shape (D self) (D self) (W_proj_x w)
      && has_shape (H self) (D self) (W_proj_h w) && (length (b_proj w) =? D self)
      && has_shape (D self) 1 (W_att w)
      && has_shape (M self) (H self * mul) (Wx w)
      && has_shape (H self) (H self * mul) (Wh w)
      && has_shape (D self) (H self * mul) (Wz w) && (length (b w) =? H self * mul)
      && (negb (ctx2out self) || has_shape (D self) (M self) (W_ctx2out w))
      && (negb (selector self)
          || (has_shape (H self) 1 (W_sel w) && (length (b_sel w) =? 1)))
      && has_shape (H self) (M self) (W1_decode w) && (length (b1_decode w) =? M self)
      && has_shape (M self) (V self) (W2_decode w) && (length (b2_decode w) =? V self)
  end.

Definition zeros (r c : nat) : mat := repeat (repeat s0 c) r.

(** all variables zero, in the shapes of [__init__] *)
Definition zero_weights (self : Config) : Weights :=
  let mul := match dim_mul (cell_type self) with Ok m => m | Err _ => 0 end in
  {| W_embed := zeros (V self) (M self);
     W1_init_h := zeros (D self) (H self); b1_init_h := repeat s0 (H self);
     W2_init_h := zeros (H self) (H self); b2_init_h := repeat s0 (H self);
     W1_init_c := zeros (D self) (H self); b1_init_c := repeat s0 (H self);
     W2_init_c := zeros (H self) (H self); b2_init_c := repeat s0 (H self);
     W_proj_x := zeros (D self) (D self);
     W_proj_h := zeros (H self) (D self); b_proj := repeat s0 (D self);
     W_att := zeros (D self) 1;
     Wx := zeros (M self) (H self * mul);
     Wh := zeros (H self) (H self * mul);
     Wz := zeros (D self) (H self * mul); b := repeat s0 (H self * mul);
     W_ctx2out := zeros (D self) (M self);
     W_sel := zeros (H self) 1; b_sel := repeat s0 1;
     W1_decode := zeros (H self) (M self); b1_decode := repeat s0 (M self);
     W2_decode := zeros (M self) (V self); b2_decode := repeat s0 (V self) |}.

End Shapes.

(** the vocabulary of the end-to-end scenario, and one without a start
    token *)
Definition vocab4 : gmap string Z :=
  {[ "<NULL>" := 0%Z; "<START>" := 1%Z; "a" := 2%Z; "dog" := 3%Z ]}.

Definition vocab_nostart : gmap string Z :=
  {[ "<NULL>" := 0%Z; "a" := 1%Z; "dog" := 2%Z ]}.

(** a model of the scenario: L=4, D=3, H=2, M=2, T=2 *)
Definition small_model (vocab : gmap string Z) (cell : string)
    (p2o c2o : bool) (ac : Q) (sel drop : bool) : result Config :=
  __init__ vocab [4; 3] 2 2 (Some 2) cell p2o c2o ac sel drop.

(** ** The steps of section 4.4 with the gate disabled

    Written after the spec: "entirely skipped (context passed through
    unchanged) when the gate is disabled".  The context of the attention
    module goes to the recurrent cell and to the output decoder as it is. *)

Section Passthrough.
Context {E : Engine}.
Variables (self : Config) (w : Weights).

Definition train_forward_passthrough (features features_projected x : ten3)
    (t : nat) (sg : train_state * rng) : result (forward_out * rng) :=
  let (s, g) := sg in
  let (attended, alpha) :=
    attention_forward features features_projected (prev_h s)
      (W_proj_h w) (b_proj w) (W_att w) in
  let xt := col [] t x in
  match cell_forward self w xt (prev_h s) (prev_c s) attended with
  | None => Err (NameError "next_h")
  | Some (next_h, next_c) =>
      let (logits_out, g) := train_decode self w xt next_h attended g in
      Ok ({| out_h := next_h; out_c := next_c; out_alpha := alpha;
             out_logits := logits_out |}, g)
  end.

Definition train_step_passthrough (features features_projected x : ten3)
    (captions_out : list (list Z)) (mask : list (list bool))
    (t : nat) (sg : train_state * rng) : result (train_state * rng) :=
  let* og := train_forward_passthrough features features_projected x t sg in
  Ok ({| prev_h := out_h (fst og); prev_c := out_c (fst og);
         loss := sadd (loss (fst sg)) (step_loss captions_out mask t (fst og));
         alpha_list := alpha_list (fst sg) ++ [out_alpha (fst og)] |}, snd og).

Definition sample_forward_passthrough (features features_projected : ten3)
    (t : nat) (s : sample_state) : result forward_out :=
  let* x := sample_input self w (length features) t s in
  let (attended, alpha) :=
    attention_forward features features_projected (sprev_h s)
      (W_proj_h w) (b_proj w) (W_att w) in
  match cell_forward self w x (sprev_h s) (sprev_c s) attended with
  | None => Err (NameError "h")
  | Some (h, c) =>
      Ok {| out_h := h; out_c := c; out_alpha := alpha;
            out_logits := sample_decode self w x h attended |}
  end.

Definition sample_step_passthrough (features features_projected : ten3) (t : nat)
    (s : sample_state) : result sample_state :=
  let* o := sample_forward_passthrough features features_projected t s in
  let word := argmax (out_logits o) in
  Ok {| sprev_h := out_h o; sprev_c := out_c o;
        sampled_word := Some word;
        sampled_word_list := sampled_word_list s ++ [word];
        salpha_list := salpha_list s ++ [out_alpha o] |}.

End Passthrough.

(** ** The outputs of the steps of a training run *)

Section Trace.
Context {E : Engine}.
Variables (self : Config) (w : Weights).

(** what the passes through lines 134-163 compute, step after step, when
    the loop is run over [ts] from the state [sg] *)
Fixpoint train_outs (features fp x : ten3) (captions_out : list (list Z))
    (mask : list (list bool)) (ts : list nat) (sg : train_state * rng)
  : result (list forward_out) :=
  match ts with
  | [] => Ok []
  | t :: ts' =>
      let* og := train_forward self w features fp x t sg in
      let* sg1 := train_step self w features fp x captions_out mask t sg in
      let* os := train_outs features fp x captions_out mask ts' sg1 in
      Ok (fst og :: os)
  end.

(** the same for a whole run of [build_model] *)
Definition model_outs (features : ten3) (captions : list (list Z)) (g : rng)
  : result (list forward_out) :=
  let co := captions_out captions in
  let* x := word_embedding_forward_seq (captions_in self captions) (W_embed w) in
  train_outs features (project_feature features (W_proj_x w)) x co
    (caption_mask self co) (seq 0 (T self)) (train_init self w features g).

(** a caption index that has a row in the embedding matrix *)
Definition in_vocab (c : Z) : Prop :=
  (0 <= c < Z.of_nat (length (W_embed w)))%Z.

End Trace.

(** ** The invariant of the sampling loop *)

Section SamplerInvariant.
Context {E : Engine}.
Variables (self : Config) (w : Weights) (N : nat).

(** a batch of [N] words that all have an embedding row *)
Definition words_ok (ws : list Z) : Prop :=
  length ws = N /\ Forall (in_vocab w) ws.

(** a batch of [N] attention maps over the [L] locations *)
Definition alpha_ok (a : mat) : Prop :=
  length a = N /\ Forall (fun r => length r = L self) a.

(** the state of the sampler before step [k] *)
Definition sampler_inv (k : nat) (s : sample_state) : Prop :=
  length (sprev_h s) = N /\ length (sprev_c s) = N /\
  length (sampled_word_list s) = k /\ length (salpha_list s) = k /\
  Forall words_ok (sampled_word_list s) /\
  Forall alpha_ok (salpha_list s) /\
  (0 < k -> exists ws, sampled_word s = Some ws /\ words_ok ws).

End SamplerInvariant.

(** what [small_model] stores for the vocabulary [vocab4] *)
Definition scenario (cell : string) (p2o c2o : bool) (ac : Q) (sel drop : bool)
  : Config :=
  {| cell_type := cell; word_to_idx := vocab4; prev2out := p2o; ctx2out := c2o;
     alpha_c := ac; selector := sel; use_dropout := drop;
     V := 4; L := 4; D := 3; M := 2; H := 2; T := 2;
     _null := 0%Z; _start := Some 1%Z |}.

(** one image whose twelve features are all zero *)
Definition one_image {E : Engine} : ten3 := [zeros 4 3].

(** the caption "<START> a dog" *)
Definition a_dog : list (list Z) := [[1; 2; 3]]%Z.

(** the two extreme outcomes of the draws: everything kept, everything
    dropped *)
Definition keep_all : nat -> bool := fun _ => true.
Definition drop_all : nat -> bool := fun _ => false.

(** ** A model small enough to run by hand

    One hidden unit, one embedding dimension, one feature dimension, two
    locations, one step, three words. *)

Definition vocab3 : gmap string Z :=
  {[ "<NULL>" := 0%Z; "<START>" := 1%Z; "a" := 2%Z ]}.

Definition tiny_model (p2o c2o : bool) (ac : Q) (sel drop : bool) : result Config :=
  __init__ vocab3 [2; 1] 1 1 (Some 1) "rnn" p2o c2o ac sel drop.

(** what [tiny_model] stores *)
Definition tiny (p2o c2o : bool) (ac : Q) (sel drop : bool) : Config :=
  {| cell_type := "rnn"; word_to_idx := vocab3; prev2out := p2o; ctx2out := c2o;
     alpha_c := ac; selector := sel; use_dropout := drop;
     V := 3; L := 2; D := 1; M := 1; H := 1; T := 1;
     _null := 0%Z; _start := Some 1%Z |}.

(** all variables zero, except that the start token is embedded as 1 and
    that the decoder sends the embedding dimension to the logit of "a" *)
Definition tiny_weights {E : Engine} (self : Config) : Weights :=
  let z := zero_weights self in
  {| W_embed := [[s0]; [sconst 1]; [s0]];
     W1_init_h := W1_init_h z; b1_init_h := b1_init_h z;
     W2_init_h := W2_init_h z; b2_init_h := b2_init_h z;
     W1_init_c := W1_init_c z; b1_init_c := b1_init_c z;
     W2_init_c := W2_init_c z; b2_init_c := b2_init_c z;
     W_proj_x := W_proj_x z; W_proj_h := W_proj_h z; b_proj := b_proj z;
     W_att := W_att z;
     Wx := Wx z; Wh := Wh z; Wz := Wz z; b := b z;
     W_ctx2out := W_ctx2out z;
     W_sel := W_sel z; b_sel := b_sel z;
     W1_decode := W1_decode z; b1_decode := b1_decode z;
     W2_decode := [[s0; s0; sconst 1]]; b2_decode := b2_decode z |}.

(** one image with two locations, all features zero *)
Definition two_locations {E : Engine} : ten3 := [zeros 2 1].

(** the caption "<START> a" and the caption "<START>" followed by padding *)
Definition start_a : list (list Z) := [[1; 2]]%Z.
Definition start_pad : list (list Z) := [[1; 0]]%Z.

(** ** The penalty of section 4.7, as the spec words it

    "add [alpha_c * sum((T/L - total_mass)^2)] to the loss": the target is
    the number of steps over the number of locations. *)

Definition alpha_reg_spec {E : Engine} (self : Config) (alpha_list : list mat)
  : result scalar :=
  let* alphas := pack_transpose alpha_list in
  let total_mass := map sum_rows alphas in
  let target := sdiv (to_float (T self)) (to_float (L self)) in
  Ok (smul (sconst (alpha_c self))
        (reduce_sum_all
           (mmap (fun a => let d := ssub target a in smul d d) total_mass))).

(** the same model with other numbers of steps and locations *)
Definition with_steps_locations (self : Config) (T' L' : nat) : Config :=
  {| cell_type := cell_type self; word_to_idx := word_to_idx self;
     prev2out := prev2out self; ctx2out := ctx2out self; alpha_c := alpha_c self;
     selector := selector self; use_dropout := use_dropout self;
     V := V self; L := L'; D := D self; M := M self; H := H self; T := T';
     _null := _null self; _start := _start self |}.

(** ** The reverse vocabulary and the variants of a model

    Line 38: [idx_to_word = {i: w for w, i in word_to_idx.iteritems()}], one
    entry written per word of the vocabulary, in the order the dictionary
    is traversed. *)

Definition idx_to_word (self : Config) : gmap Z string :=
  map_fold (fun (word : string) (i : Z) (acc : gmap Z string) => <[i := word]> acc)
    (∅ : gmap Z string) (word_to_idx self).

(** the same model with another regularization coefficient *)
Definition with_alpha_c (self : Config) (a : Q) : Config :=
  {| cell_type := cell_type self; word_to_idx := word_to_idx self;
     prev2out := prev2out self; ctx2out := ctx2out self; alpha_c := a;
     selector := selector self; use_dropout := use_dropout self;
     V := V self; L := L self; D := D self; M := M self; H := H self;
     T := T self; _null := _null self; _start := _start self |}.

Section WeightVariants.
Context {E : Engine}.

(** the same variables with another context-to-output matrix *)
Definition with_ctx2out_weights (w : Weights) (Wc : mat) : Weights :=
  {| W_embed := W_embed w;
     W1_init_h := W1_init_h w; b1_init_h := b1_init_h w;
     W2_init_h := W2_init_h w; b2_init_h := b2_init_h w;
     W1_init_c := W1_init_c w; b1_init_c := b1_init_c w;
     W2_init_c := W2_init_c w; b2_init_c := b2_init_c w;
     W_proj_x := W_proj_x w; W_proj_h := W_proj_h w; b_proj := b_proj w;
     W_att := W_att w;
     Wx := Wx w; Wh := Wh w; Wz := Wz w; b := b w;
     W_ctx2out := Wc;
     W_sel := W_sel w; b_sel := b_sel w;
     W1_decode := W1_decode w; b1_decode := b1_decode w;
     W2_decode := W2_decode w; b2_decode := b2_decode w |}.

(** the same variables with other weights of the selector gate *)
Definition with_selector_weights (w : Weights) (Ws : mat) (bs : vec) : Weights :=
  {| W_embed := W_embed w;
     W1_init_h := W1_init_h w; b1_init_h := b1_init_h w;
     W2_init_h := W2_init_h w; b2_init_h := b2_init_h w;
     W1_init_c := W1_init_c w; b1_init_c := b1_init_c w;
     W2_init_c := W2_init_c w; b2_init_c := b2_init_c w;
     W_proj_x := W_proj_x w; W_proj_h := W_proj_h w; b_proj := b_proj w;
     W_att := W_att w;
     Wx := Wx w; Wh := Wh w; Wz := Wz w; b := b w;
     W_ctx2out := W_ctx2out w;
     W_sel := Ws; b_sel := bs;
     W1_decode := W1_decode w; b1_decode := b1_decode w;
     W2_decode := W2_decode w; b2_decode := b2_decode w |}.

(** the same variables with other weights of the cell-state initializer *)
Definition with_init_c_weights (w : Weights) (W1 : mat) (b1 : vec) (W2 : mat)
    (b2 : vec) : Weights :=
  {| W_embed := W_embed w;
     W1_init_h := W1_init_h w; b1_init_h := b1_init_h w;
     W2_init_h := W2_init_h w; b2_init_h := b2_init_h w;
     W1_init_c := W1; b1_init_c := b1;
     W2_init_c := W2; b2_init_c := b2;
     W_proj_x := W_proj_x w; W_proj_h := W_proj_h w; b_proj := b_proj w;
     W_att := W_att w;
     Wx := Wx w; Wh := Wh w; Wz := Wz w; b := b w;
     W_ctx2out := W_ctx2out w;
     W_sel := W_sel w; b_sel := b_sel w;
     W1_decode := W1_decode w; b1_decode := b1_decode w;
     W2_decode := W2_decode w; b2_decode := b2_decode w |}.

End WeightVariants.

(** one row extends another *)
Definition extends {A : Type} (short long : list A) : Prop :=
  exists rest, long = short ++ rest.

(** two states of the sampler that differ in the cell state at most *)
Definition same_but_c {E : Engine} (s1 s2 : sample_state) : Prop :=
  sprev_h s1 = sprev_h s2 /\ sampled_word s1 = sampled_word s2 /\
  sampled_word_list s1 = sampled_word_list s2 /\
  salpha_list s1 = salpha_list s2.

(** the same model built with other training options: the dropout flag,
    the regularization coefficient and the number of training steps *)
Definition with_training_options (self : Config) (drop : bool) (a : Q) (T' : nat)
  : Config :=
  {| cell_type := cell_type self; word_to_idx := word_to_idx self;
     prev2out := prev2out self; ctx2out := ctx2out self; alpha_c := a;
     selector := selector self; use_dropout := drop;
     V := V self; L := L self; D := D self; M := M self; H := H self;
     T := T'; _null := _null self; _start := _start self |}.

(** the same model built over another vocabulary: what lines 37 and 51
    store for it *)
Definition with_vocabulary (self : Config) (vocab : gmap string Z) : Config :=
  {| cell_type := cell_type self; word_to_idx := vocab;
     prev2out := prev2out self; ctx2out := ctx2out self; alpha_c := alpha_c self;
     selector := selector self; use_dropout := use_dropout self;
     V := V self; L := L self; D := D self; M := M self; H := H self;
     T := T self; _null := _null self; _start := vocab !! "<START>" |}.

(** a vocabulary of four words without a start token *)
Definition vocab4_nostart : gmap string Z :=
  {[ "<NULL>" := 0%Z; "the" := 1%Z; "a" := 2%Z; "dog" := 3%Z ]}.

(** ** What is fed to the graph

    Lines 97-98: the placeholders [features], of shape [None, L, D], and
    [captions], of shape [None, T + 1].  A batch is fed to both; the
    docstring of [build_model] asks for caption entries in [0, V). *)

Section Feeds.
Context {E : Engine}.
Local Open Scope nat_scope.

Definition features_fit (self : Config) (features : ten3) : bool :=
  forallb (has_shape (L self) (D self)) features.

Definition captions_fit (self : Config) (captions : list (list Z)) : bool :=
  forallb (fun c => length c =? T self + 1) captions.

Definition captions_in_range (self : Config) (captions : list (list Z)) : bool :=
  forallb (forallb (fun c => (0 <=? c)%Z && (c <? Z.of_nat (V self))%Z)) captions.

(** a batch of images with their captions that the graph of [build_model]
    can be run on *)
Definition training_feed (self : Config) (features : ten3)
    (captions : list (list Z)) : bool :=
  features_fit self features && captions_fit self captions
  && (length captions =? length features) && captions_in_range self captions.

End Feeds.

(** ** Caption batches that agree off the padding

    Two batches agree on the positions that are not padding when they have
    the same first column, which is input only and has no mask, and the
    same index at every later position where the mask of either is true,
    that is, where either holds another index than the null index. *)
Definition agree_on_unmasked (self : Config) (c1 c2 : list (list Z)) : Prop :=
  Forall2 (fun r1 r2 =>
             hd_error r1 = hd_error r2 /\
             Forall2 (fun a c => a <> _null self \/ c <> _null self -> a = c)
               (skipn 1 r1) (skipn 1 r2))
    c1 c2.

(** ** What a dropout leaves of a matrix

    Every entry is the entry it was, divided by the keep probability, and
    multiplied by 1 where it is kept and by 0 where it is dropped. *)

Section Dropped.
Context {E : Engine}.

Definition dropped_entry (p : Q) (x y : scalar) : Prop :=
  y = smul (sdiv x (sconst p)) (sconst 1) \/
  y = smul (sdiv x (sconst p)) (sconst 0).

Definition dropped_out (p : Q) (X Y : mat) : Prop :=
  Forall2 (Forall2 (dropped_entry p)) X Y.

End Dropped.

(** ** The loss of section 4.7, as the spec words it

    "compute masked softmax cross-entropy between step logits and
    captions_out[:,t] using mask[:,t] (loss contribution is zero for
    masked/padding positions), accumulate into running loss": the target of
    image [n] at step [t] is entry [t + 1] of its caption; a target equal to
    the null index contributes zero, every other one the cross-entropy of
    the logits of the image at the target.  "sum-over-unmasked-tokens-and-
    steps divided by N". *)

Section SpecLoss.
Context {E : Engine}.

Definition spec_token_entropy (self : Config) (t : nat) (logits : vec)
    (caption : list Z) : scalar :=
  let target := nth (S t) caption 0%Z in
  if (target =? _null self)%Z then s0 else cross_entropy logits target.

Definition spec_step_entropy (self : Config) (captions : list (list Z)) (t : nat)
    (logits : mat) : scalar :=
  ssum (map2 (spec_token_entropy self t) logits captions).

Definition spec_entropy_total (self : Config) (captions : list (list Z))
    (step_logits : list mat) : scalar :=
  fold_left sadd
    (map2 (spec_step_entropy self captions) (seq 0 (T self)) step_logits)
    (sconst 0).

(** "stack all T AttentionWeights into (N,T,L), sum over T to get
    per-location total attention mass (N,L), and add
    alpha_c * sum((target - total_mass)^2)", for a given target *)
Definition spec_attention_penalty (coefficient target : scalar)
    (attention_weights : list mat) : result scalar :=
  let* stacked := pack_transpose attention_weights in
  let total_mass := map sum_rows stacked in
  Ok (smul coefficient
        (reduce_sum_all
           (mmap (fun mass => let d := ssub target mass in smul d d) total_mass))).

End SpecLoss.

(** ** The steps of a sampling run *)

Section SampleTrace.
Context {E : Engine}.
Variables (self : Config) (w : Weights).

(** the input each pass through lines 203-236 embeds and what the pass
    computes, step after step, when the loop is run over [ts] from the
    state [s] *)
Fixpoint sample_trace (features fp : ten3) (ts : list nat) (s : sample_state)
  : result (list (mat * forward_out)) :=
  match ts with
  | [] => Ok []
  | t :: ts' =>
      let* x := sample_input self w (length features) t s in
      let* o := sample_forward self w features fp t s in
      let* s1 := sample_step self w features fp t s in
      let* rest := sample_trace features fp ts' s1 in
      Ok ((x, o) :: rest)
  end.

(** the same for a whole run of [build_sampler] *)
Definition sampler_trace (features : ten3) (max_len : nat)
  : result (list (mat * forward_out)) :=
  sample_trace features (project_feature features (W_proj_x w)) (seq 0 max_len)
    (sample_init w features).

(** [o] is what lines 209-233 compute from the input embedding [x], the
    hidden state [h] and the cell state [c]: the attention over the
    features, the gate, the cell update on [x] and the decoder on [x] *)
Definition step_from (features : ten3) (x h c : mat) (o : forward_out) : Prop :=
  let (context, alpha) :=
    attention_forward features (project_feature features (W_proj_x w)) h
      (W_proj_h w) (b_proj w) (W_att w) in
  let context := select_context self w h context in
  cell_forward self w x h c context = Some (out_h o, out_c o) /\
  out_alpha o = alpha /\
  out_logits o = sample_decode self w x (out_h o) context.

End SampleTrace.

(** ** The states of a training run *)

Section TrainStates.
Context {E : Engine}.
Variables (self : Config) (w : Weights).

(** the state and the randomness left in which the loop of lines 133-166
    enters step [t] *)
Definition train_state_at (features : ten3) (captions : list (list Z)) (g : rng)
    (x : ten3) (t : nat) : result (train_state * rng) :=
  for_loop (train_step self w features (project_feature features (W_proj_x w)) x
              (captions_out captions) (caption_mask self (captions_out captions)))
    (seq 0 t) (train_init self w features g).

End TrainStates.

(** * Properties *)

(** ** Construction *)

Section Construction.
Variables (vocab : gmap string Z) (dim_feature : list nat) (dim_embed dim_hidden : nat)
  (n_time_step : option nat) (cell : string) (p2o c2o : bool) (ac : Q)
  (sel drop : bool).

Let construct : result Config :=
  __init__ vocab dim_feature dim_embed dim_hidden n_time_step cell p2o c2o ac sel drop.

Lemma recognized_eqb :
  (String.eqb cell "rnn" || String.eqb cell "lstm") = true <->
  cell = "rnn" \/ cell = "lstm".
Proof.
  rewrite orb_true_iff, !String.eqb_eq. tauto.
Qed.

Lemma init_rejects : cell <> "rnn" -> cell <> "lstm" ->
  construct = Err (ValueError (invalid_cell_type cell)).
Proof.
  intros Hr Hl. unfold construct, __init__.
  destruct (String.eqb cell "rnn" || String.eqb cell "lstm") eqn:Hc; [|reflexivity].
  apply recognized_eqb in Hc. tauto.
Qed.

Lemma init_recognized : cell = "rnn" \/ cell = "lstm" ->
  forall msg, construct <> Err (ValueError msg).
Proof.
  intros Hc msg. unfold construct, __init__.
  apply recognized_eqb in Hc as Hb. rewrite Hb. cbn [negb].
  destruct (nth_error dim_feature 0); [|discriminate].
  destruct (nth_error dim_feature 1); [|discriminate].
  destruct (vocab !! "<NULL>"); [|discriminate].
  unfold dim_mul.
  destruct Hc as [-> | ->]; cbn; destruct n_time_step; discriminate.
Qed.

(** what a construction that passes all checks stores *)
Lemma init_ok (L_ D_ T_ : nat) (null : Z) :
  cell = "rnn" \/ cell = "lstm" ->
  nth_error dim_feature 0 = Some L_ -> nth_error dim_feature 1 = Some D_ ->
  vocab !! "<NULL>" = Some null -> n_time_step = Some T_ ->
  construct =
    Ok {| cell_type := cell; word_to_idx := vocab; prev2out := p2o; ctx2out := c2o;
          alpha_c := ac; selector := sel; use_dropout := drop;
          V := size vocab; L := L_; D := D_; M := dim_embed; H := dim_hidden;
          T := T_; _null := null; _start := vocab !! "<START>" |}.
Proof.
  intros Hc HL HD Hn HT. unfold construct, __init__.
  apply recognized_eqb in Hc as Hb. rewrite Hb, HL, HD, Hn, HT. cbn [negb].
  unfold dim_mul. destruct Hc as [-> | ->]; reflexivity.
Qed.

End Construction.

(** C10.  A cell variant other than ['rnn'] and ['lstm'] makes [__init__]
    raise its [ValueError] whatever the other arguments are: the check is
    the first statement, nothing is created before it.  With one of the two
    recognized values [__init__] never raises that error. *)
Theorem cell_type_fail_fast :
  forall (vocab : gmap string Z) dim_feature dim_embed dim_hidden n_time_step
         (cell : string) p2o c2o ac sel drop,
    (cell <> "rnn" -> cell <> "lstm" ->
     __init__ vocab dim_feature dim_embed dim_hidden n_time_step cell p2o c2o ac
       sel drop = Err (ValueError (invalid_cell_type cell))) /\
    (cell = "rnn" \/ cell = "lstm" ->
     forall msg,
       __init__ vocab dim_feature dim_embed dim_hidden n_time_step cell p2o c2o ac
         sel drop <> Err (ValueError msg)).
Proof.
  intros. split.
  - apply init_rejects.
  - apply init_recognized.
Qed.

Lemma cell_type_fail_fast_witness :
  small_model vocab4 "gru" true true 0 true true
    = Err (ValueError (invalid_cell_type "gru")) /\
  (forall msg, small_model vocab4 "lstm" true true 0 true true
                 <> Err (ValueError msg)).
Proof.
  split.
  - apply (proj1 (cell_type_fail_fast vocab4 [4; 3] 2 2 (Some 2) "gru"
                    true true 0 true true)); discriminate.
  - apply (proj2 (cell_type_fail_fast vocab4 [4; 3] 2 2 (Some 2) "lstm"
                    true true 0 true true)).
    right. reflexivity.
Defined.

(** ** The sampler without a start token *)

Section NoStart.
Context {E : Engine}.
Variables (self : Config) (w : Weights).
Hypothesis no_start : _start self = None.

Lemma sample_step_0_no_start features fp s :
  sample_step self w features fp 0 s = Err (EngineError "fill").
Proof.
  unfold sample_step, sample_forward, sample_input, sampler_words.
  cbn [Nat.eqb]. rewrite no_start. reflexivity.
Qed.

Lemma sample_unroll_no_start features n :
  sample_unroll self w features (S n) = Err (EngineError "fill").
Proof.
  unfold sample_unroll. cbn [seq for_loop].
  rewrite sample_step_0_no_start. reflexivity.
Qed.

Lemma build_sampler_no_start features max_len :
  build_sampler self w features max_len
  = Err (EngineError (if Nat.eqb max_len 0 then "transpose" else "fill")).
Proof.
  unfold build_sampler. destruct max_len as [|n].
  - reflexivity.
  - rewrite sample_unroll_no_start. reflexivity.
Qed.

End NoStart.

(** C4.  A vocabulary without ['<START>'] passes construction, which stores
    [None] as the start index; every sampler built from that model then
    fails: with at least one step, at step 0, where the start index is to be
    embedded for the whole batch. *)
Theorem sampler_needs_start :
  forall (vocab : gmap string Z) dim_feature dim_embed dim_hidden T_ (cell : string)
         p2o c2o ac sel drop L_ D_ null,
    vocab !! "<START>" = None ->
    vocab !! "<NULL>" = Some null ->
    cell = "rnn" \/ cell = "lstm" ->
    nth_error dim_feature 0 = Some L_ ->
    nth_error dim_feature 1 = Some D_ ->
    exists self,
      __init__ vocab dim_feature dim_embed dim_hidden (Some T_) cell p2o c2o ac
        sel drop = Ok self /\
      _start self = None /\
      forall (E : Engine) (w : Weights) (features : ten3) (max_len : nat),
        build_sampler self w features max_len
        = Err (EngineError (if Nat.eqb max_len 0 then "transpose" else "fill")).
Proof.
  intros vocab dim_feature dim_embed dim_hidden T_ cell p2o c2o ac sel drop
    L_ D_ null Hs Hn Hc HL HD.
  eexists. split; [|split].
  - apply (init_ok vocab dim_feature dim_embed dim_hidden (Some T_) cell p2o c2o
             ac sel drop L_ D_ T_ null); auto.
  - exact Hs.
  - intros E w features max_len. apply build_sampler_no_start. exact Hs.
Qed.

Lemma sampler_needs_start_witness :
  exists self,
    small_model vocab_nostart "rnn" true true 0 true true = Ok self /\
    _start self = None /\
    forall (E : Engine) (w : Weights) (features : ten3) (max_len : nat),
      build_sampler self w features max_len
      = Err (EngineError (if Nat.eqb max_len 0 then "transpose" else "fill")).
Proof.
  apply (sampler_needs_start vocab_nostart [4; 3] 2 2 2 "rnn" true true 0 true
           true 4 3 0%Z).
  - reflexivity.
  - reflexivity.
  - left. reflexivity.
  - reflexivity.
  - reflexivity.
Defined.

(** ** The selector gate *)

Lemma select_context_disabled {E : Engine} (self : Config) (w : Weights)
    (prev_h context : mat) :
  selector self = false -> select_context self w prev_h context = context.
Proof.
  intros Hs. unfold select_context. rewrite Hs. reflexivity.
Qed.

(** C9.  With the selector gate disabled, every step of the training loop
    and every step of the sampling loop is the step that hands the context
    of the attention module, unchanged, to the recurrent cell and to the
    output decoder. *)
Theorem selector_disabled_passthrough :
  forall (E : Engine) (self : Config) (w : Weights),
    selector self = false ->
    (forall features fp x captions_out mask t sg,
        train_step self w features fp x captions_out mask t sg
        = train_step_passthrough self w features fp x captions_out mask t sg) /\
    (forall features fp t s,
        sample_step self w features fp t s
        = sample_step_passthrough self w features fp t s).
Proof.
  intros E self w Hs. split.
  - intros features fp x captions_out mask t [s g].
    unfold train_step, train_step_passthrough.
    unfold train_forward, train_forward_passthrough.
    destruct (attention_forward _ _ _ _ _ _) as [attended alpha].
    rewrite select_context_disabled by exact Hs. reflexivity.
  - intros features fp t s.
    unfold sample_step, sample_step_passthrough.
    unfold sample_forward, sample_forward_passthrough.
    destruct (sample_input _ _ _ _ _) as [x|e]; [|reflexivity].
    cbn [rbind].
    destruct (attention_forward _ _ _ _ _ _) as [attended alpha].
    rewrite select_context_disabled by exact Hs. reflexivity.
Qed.

Lemma small_model_scenario cell p2o c2o ac sel drop :
  cell = "rnn" \/ cell = "lstm" ->
  small_model vocab4 cell p2o c2o ac sel drop
  = Ok (scenario cell p2o c2o ac sel drop).
Proof.
  intros Hc. unfold small_model.
  rewrite (init_ok vocab4 [4; 3] 2 2 (Some 2) cell p2o c2o ac sel drop 4 3 2 0%Z);
    auto.
Qed.

Lemma selector_disabled_passthrough_witness :
  selector (scenario "rnn" true true 0 false false) = false /\
  forall t s,
    sample_step (scenario "rnn" true true 0 false false)
      (zero_weights (scenario "rnn" true true 0 false false))
      one_image (project_feature one_image (zeros 3 3)) t s
    = sample_step_passthrough (scenario "rnn" true true 0 false false)
        (zero_weights (scenario "rnn" true true 0 false false))
        one_image (project_feature one_image (zeros 3 3)) t s.
Proof.
  split.
  - reflexivity.
  - apply (proj2 (selector_disabled_passthrough REngine
                    (scenario "rnn" true true 0 false false)
                    (zero_weights (scenario "rnn" true true 0 false false))
                    eq_refl)).
Defined.

(** ** Greedy decoding *)

Lemma REngine_ordered : OrderedEngine REngine.
Proof.
  split; cbn; unfold Rltb.
  - intros x. destruct (Rlt_dec x x); [lra | reflexivity].
  - intros x y. destruct (Rlt_dec x y); [|discriminate].
    destruct (Rlt_dec y x); [lra | reflexivity].
  - intros x y z. destruct (Rlt_dec y x); [discriminate|].
    destruct (Rlt_dec z y); [discriminate|].
    destruct (Rlt_dec z x); [lra | reflexivity].
Qed.

Section Argmax.
Context {E : Engine} {OE : OrderedEngine E}.

Lemma argmax_from_greatest (v pre : vec) (best : scalar) (bi : nat) :
  bi < length pre ->
  nth bi pre s0 = best ->
  (forall y, In y pre -> sltb best y = false) ->
  argmax_from best bi (length pre) v < length (pre ++ v) /\
  forall y, In y (pre ++ v) ->
    sltb (nth (argmax_from best bi (length pre) v) (pre ++ v) s0) y = false.
Proof.
  revert pre best bi.
  induction v as [|x v IH]; intros pre best bi Hbi Hnth Hall.
  - cbn [argmax_from]. rewrite app_nil_r. split; [exact Hbi|].
    intros y Hy. rewrite Hnth. auto.
  - cbn [argmax_from].
    assert (Hlen : length (pre ++ [x]) = S (length pre))
      by (rewrite length_app; cbn; lia).
    assert (Happ : pre ++ x :: v = (pre ++ [x]) ++ v)
      by (rewrite <- app_assoc; reflexivity).
    destruct (sltb best x) eqn:Hlt.
    + specialize (IH (pre ++ [x]) x (length pre)).
      rewrite Hlen in IH. rewrite Happ. apply IH.
      * lia.
      * rewrite app_nth2 by lia. rewrite Nat.sub_diag. reflexivity.
      * intros y Hy. apply in_app_or in Hy as [Hy | [<- | []]].
        -- apply (sltb_le_trans y best x); [auto|].
           apply sltb_asym. exact Hlt.
        -- apply sltb_irrefl.
    + specialize (IH (pre ++ [x]) best bi).
      rewrite Hlen in IH. rewrite Happ. apply IH.
      * lia.
      * rewrite app_nth1 by lia. exact Hnth.
      * intros y Hy. apply in_app_or in Hy as [Hy | [<- | []]]; auto.
Qed.

Lemma argmax_row_greatest (row : vec) :
  row <> [] ->
  argmax_row row < length row /\
  forall y, In y row -> sltb (nth (argmax_row row) row s0) y = false.
Proof.
  destruct row as [|x v]; [congruence|]. intros _.
  unfold argmax_row.
  apply (argmax_from_greatest v [x] x 0).
  - cbn. lia.
  - reflexivity.
  - intros y [<- | []]. apply sltb_irrefl.
Qed.

End Argmax.

Lemma embed_repeat {E : Engine} (W : mat) (st : Z) (e : vec) (n : nat) :
  embed W st = Ok e ->
  word_embedding_forward (repeat st n) W = Ok (repeat e n).
Proof.
  intros He. unfold word_embedding_forward.
  induction n as [|n IH]; [reflexivity|].
  cbn [repeat mapM_result]. rewrite He, IH. reflexivity.
Qed.

(** ** The training loss *)

Section TrainingLoop.
Context {E : Engine}.
Variables (self : Config) (w : Weights).

Lemma mapM_result_ok {A B : Type} (f : A -> result B) (l : list A) :
  Forall (fun a => exists y, f a = Ok y) l ->
  exists ys, mapM_result f l = Ok ys /\ length ys = length l.
Proof.
  induction 1 as [|a l [y Hy] _ [ys [Hys Hlen]]].
  - exists []. split; reflexivity.
  - exists (y :: ys). cbn [mapM_result]. rewrite Hy, Hys.
    split; [reflexivity | cbn; congruence].
Qed.

Lemma embed_in_vocab (c : Z) :
  in_vocab w c -> exists row, embed (W_embed w) c = Ok row.
Proof.
  intros [Hlo Hhi]. unfold embed.
  destruct (c <? 0)%Z eqn:Hneg; [apply Z.ltb_lt in Hneg; lia|].
  destruct (nth_error (W_embed w) (Z.to_nat c)) as [row|] eqn:Hrow.
  - exists row. reflexivity.
  - apply nth_error_None in Hrow. lia.
Qed.

Lemma embedding_seq_ok (cs : list (list Z)) :
  Forall (Forall (in_vocab w)) cs ->
  exists x, word_embedding_forward_seq cs (W_embed w) = Ok x /\
            length x = length cs.
Proof.
  intros Hcs. apply mapM_result_ok.
  eapply List.Forall_impl; [|exact Hcs].
  intros row Hrow. unfold word_embedding_forward.
  destruct (mapM_result_ok (embed (W_embed w)) row) as [ys [Hys _]].
  - eapply List.Forall_impl; [|exact Hrow]. intros c. apply embed_in_vocab.
  - exists ys. exact Hys.
Qed.

Lemma cell_forward_ok x h c ctx :
  cell_type self = "rnn" \/ cell_type self = "lstm" ->
  exists hc, cell_forward self w x h c ctx = Some hc.
Proof.
  intros [Hc | Hc]; unfold cell_forward; rewrite Hc; cbn; eexists; reflexivity.
Qed.

Lemma train_forward_ok features fp x t sg :
  cell_type self = "rnn" \/ cell_type self = "lstm" ->
  exists og, train_forward self w features fp x t sg = Ok og.
Proof.
  intros Hc. destruct sg as [s g]. unfold train_forward.
  destruct (attention_forward _ _ _ _ _ _) as [context alpha].
  destruct (cell_forward_ok (col [] t x) (prev_h s) (prev_c s)
              (select_context self w (prev_h s) context) Hc) as [[h c] Hhc].
  rewrite Hhc.
  destruct (train_decode _ _ _ _ _ _) as [logits g1].
  eexists. reflexivity.
Qed.

(** the invariant of the loop of lines 133-166 *)
Lemma train_loop_invariant features fp x co mask ts :
  cell_type self = "rnn" \/ cell_type self = "lstm" ->
  forall sg,
  exists outs sg1,
    train_outs self w features fp x co mask ts sg = Ok outs /\
    for_loop (train_step self w features fp x co mask) ts sg = Ok sg1 /\
    length outs = length ts /\
    loss (fst sg1) = fold_left sadd (map2 (step_loss co mask) ts outs)
                       (loss (fst sg)) /\
    alpha_list (fst sg1) = alpha_list (fst sg) ++ map out_alpha outs.
Proof.
  intros Hc. induction ts as [|t ts IH]; intros sg.
  - exists [], sg. cbn. rewrite app_nil_r. auto.
  - destruct (train_forward_ok features fp x t sg Hc) as [og Hog].
    assert (Hstep : exists sg2,
               train_step self w features fp x co mask t sg = Ok sg2 /\
               loss (fst sg2) = sadd (loss (fst sg)) (step_loss co mask t (fst og)) /\
               alpha_list (fst sg2) = alpha_list (fst sg) ++ [out_alpha (fst og)]).
    { unfold train_step. rewrite Hog. cbn [rbind]. eexists.
      split; [reflexivity|]. split; reflexivity. }
    destruct Hstep as [sg2 [Hstep [Hl2 Ha2]]].
    cbn [train_outs for_loop]. rewrite Hog, Hstep. cbn [rbind].
    destruct (IH sg2) as [outs [sg1 [Houts [Hloop [Hlen [Hloss Hal]]]]]].
    rewrite Houts, Hloop. cbn [rbind].
    exists (fst og :: outs), sg1.
    split; [reflexivity|]. split; [reflexivity|].
    split; [cbn; congruence|]. split.
    + rewrite Hloss, Hl2. reflexivity.
    + rewrite Hal, Ha2. cbn [map]. rewrite <- app_assoc. reflexivity.
Qed.

End TrainingLoop.

(** ** Dropout in the training graph *)

Lemma init_lstm_no_dropout {E : Engine} (features : mat) (W1 : mat) (b1 : vec)
    (W2 : mat) (b2 : vec) (g : rng) :
  init_lstm features W1 b1 W2 b2 false g
  = (init_lstm_default features W1 b1 W2 b2, g).
Proof. reflexivity. Qed.

(** ** Shapes through the sampler *)

Section ListShapes.
Context {E : Engine}.

Lemma length_map2 {A B C : Type} (f : A -> B -> C) (l : list A) (m : list B) :
  length (map2 f l m) = Nat.min (length l) (length m).
Proof.
  revert m. induction l as [|a l IH]; intros [|b0 m]; cbn; auto.
Qed.

Lemma Forall_map2 {A B C : Type} (P : C -> Prop) (f : A -> B -> C)
    (l : list A) (m : list B) :
  (forall a c, In a l -> In c m -> P (f a c)) -> Forall P (map2 f l m).
Proof.
  revert m. induction l as [|a l IH]; intros [|b0 m] Hf; cbn; constructor.
  - apply Hf; left; reflexivity.
  - apply IH. intros a' c' Ha Hc. apply Hf; right; assumption.
Qed.

Lemma fst_split_map {A B : Type} (l : list (A * B)) :
  fst (split l) = map fst l.
Proof.
  induction l as [|[a c] l IH]; [reflexivity|].
  cbn. destruct (split l). cbn in *. congruence.
Qed.

Lemma snd_split_map {A B : Type} (l : list (A * B)) :
  snd (split l) = map snd l.
Proof.
  induction l as [|[a c] l IH]; [reflexivity|].
  cbn. destruct (split l). cbn in *. congruence.
Qed.

Lemma mapM_result_length {A B : Type} (f : A -> result B) (l : list A) ys :
  mapM_result f l = Ok ys -> length ys = length l.
Proof.
  revert ys. induction l as [|a l IH]; intros ys; cbn.
  - intros [= <-]. reflexivity.
  - destruct (f a) as [y|]; [|discriminate]. cbn.
    destruct (mapM_result f l) as [ys'|]; [|discriminate]. cbn.
    intros [= <-]. cbn. rewrite (IH ys'); reflexivity.
Qed.

Lemma length_matmul (X W : mat) : length (matmul X W) = length X.
Proof. apply length_map. Qed.

Lemma length_add_bias (X : mat) (c : vec) : length (add_bias X c) = length X.
Proof. apply length_map. Qed.

Lemma length_mmap (f : scalar -> scalar) (X : mat) : length (mmap f X) = length X.
Proof. apply length_map. Qed.

Lemma length_madd (X Y : mat) :
  length (madd X Y) = Nat.min (length X) (length Y).
Proof. apply length_map2. Qed.

Lemma length_affine_forward (X W : mat) (c : vec) :
  length (affine_forward X W c) = length X.
Proof.
  unfold affine_forward. rewrite length_add_bias. apply length_matmul.
Qed.

Lemma affine_forward_row_length (X W : mat) (c : vec) :
  Forall (fun row => length row <= length c) (affine_forward X W c).
Proof.
  unfold affine_forward, add_bias. apply Forall_map. apply Forall_forall.
  intros row _. unfold vadd. rewrite length_map2. lia.
Qed.

Lemma length_init_lstm_default (X W1 : mat) (c1 : vec) (W2 : mat) (c2 : vec) :
  length (init_lstm_default X W1 c1 W2 c2) = length X.
Proof.
  unfold init_lstm_default, tanh.
  rewrite length_mmap, length_affine_forward, length_mmap.
  apply length_affine_forward.
Qed.

Lemma length_softmax (v : vec) : length (softmax v) = length v.
Proof. unfold softmax. rewrite !length_map. reflexivity. Qed.

Lemma argmax_from_bound (v : vec) (best : scalar) (bi i : nat) :
  bi < i -> argmax_from best bi i v < i + length v.
Proof.
  revert best bi i. induction v as [|x v IH]; intros best bi i Hbi; cbn.
  - lia.
  - destruct (sltb best x).
    + specialize (IH x i (S i)). lia.
    + specialize (IH best bi (S i)). lia.
Qed.

Lemma argmax_row_bound (v : vec) : v <> [] -> argmax_row v < length v.
Proof.
  destruct v as [|x v]; [congruence|]. intros _. cbn.
  pose proof (argmax_from_bound v x 0 1). lia.
Qed.

End ListShapes.

Section PackShapes.
Context {A : Type}.

Lemma pick_length (n : nat) (l : list (list A)) :
  Forall (fun s => n < length s) l ->
  length (flat_map (fun s => match nth_error s n with
                             | Some x => [x]
                             | None => []
                             end) l) = length l.
Proof.
  induction 1 as [|s l Hs _ IH]; [reflexivity|].
  cbn [flat_map]. rewrite length_app, IH.
  destruct (nth_error s n) eqn:Hn; [reflexivity|].
  apply nth_error_None in Hn. lia.
Qed.

Lemma pick_Forall (P : A -> Prop) (n : nat) (l : list (list A)) :
  Forall (Forall P) l ->
  Forall P (flat_map (fun s => match nth_error s n with
                               | Some x => [x]
                               | None => []
                               end) l).
Proof.
  induction 1 as [|s l Hs _ IH]; [constructor|].
  cbn [flat_map]. apply Forall_app. split; [|exact IH].
  destruct (nth_error s n) eqn:Hn; [|constructor].
  constructor; [|constructor].
  rewrite List.Forall_forall in Hs. apply Hs.
  eapply nth_error_In. exact Hn.
Qed.

(** stacking [length l] tensors with leading axis [N] gives [N] rows of
    [length l] entries, every entry taken from one of the tensors *)
Lemma pack_transpose_shape (P : A -> Prop) (N : nat) (l : list (list A)) :
  l <> [] ->
  Forall (fun s => length s = N /\ Forall P s) l ->
  exists r,
    pack_transpose l = Ok r /\ length r = N /\
    Forall (fun row => length row = length l /\ Forall P row) r.
Proof.
  intros Hne Hl. destruct l as [|a l']; [congruence|].
  eexists. split; [reflexivity|].
  assert (Ha : length a = N) by (inversion Hl as [|? ? [Hlen _] _]; exact Hlen).
  split; [rewrite length_map, length_seq; exact Ha|].
  apply Forall_map. apply List.Forall_forall. intros n Hn.
  apply in_seq in Hn. split.
  - apply pick_length. eapply List.Forall_impl; [|exact Hl].
    intros s [Hs _]. cbn beta. lia.
  - apply pick_Forall. eapply List.Forall_impl; [|exact Hl].
    intros s [_ Hs]. exact Hs.
Qed.

End PackShapes.

Section SamplerShapes.
Context {E : Engine}.
Variables (self : Config) (w : Weights) (features : ten3).
Hypothesis Hcell : cell_type self = "rnn" \/ cell_type self = "lstm".
Hypothesis Hfeat : Forall (fun f => length f = L self) features.
Hypothesis Hb2 : length (b2_decode w) <= length (W_embed w).
Hypothesis HV : 0 < length (W_embed w).

Lemma attention_shape (h : mat) :
  length h = length features ->
  length (fst (attention_forward features
                 (project_feature features (W_proj_x w)) h
                 (W_proj_h w) (b_proj w) (W_att w))) = length features /\
  alpha_ok self (length features)
    (snd (attention_forward features
            (project_feature features (W_proj_x w)) h
            (W_proj_h w) (b_proj w) (W_att w))).
Proof using Hfeat.
  clear Hcell Hb2 HV.
  intros Hh. unfold attention_forward, alpha_ok. cbv zeta.
  match goal with |- context [split ?X] =>
    rewrite (fst_split_map X), (snd_split_map X)
  end.
  rewrite !length_map, length_map2.
  rewrite length_combine, length_affine_forward, Hh.
  unfold project_feature at 1 2. rewrite length_map.
  split; [lia|]. split; [lia|].
  apply Forall_map. apply Forall_map2.
  intros [f fp] hp Hin _. cbn [fst snd attention_one].
  rewrite length_softmax, length_map.
  apply in_combine_r in Hin. unfold project_feature in Hin.
  apply in_map_iff in Hin as [f0 [<- Hf0]].
  rewrite length_matmul.
  rewrite List.Forall_forall in Hfeat. apply Hfeat. exact Hf0.
Qed.

Lemma select_context_length (h ctx : mat) :
  length h = length features -> length ctx = length features ->
  length (select_context self w h ctx) = length features.
Proof using Type.
  clear Hcell Hfeat Hb2 HV.
  intros Hh Hc. unfold select_context. destruct (selector self); [|exact Hc].
  unfold gate, affine_sigmoid_forward.
  rewrite length_map2, length_mmap, length_affine_forward. lia.
Qed.

Lemma cell_forward_shape (x h c ctx : mat) :
  length x = length features -> length h = length features ->
  length c = length features -> length ctx = length features ->
  exists h1 c1,
    cell_forward self w x h c ctx = Some (h1, c1) /\
    length h1 = length features /\ length c1 = length features.
Proof using Hcell.
  clear Hfeat Hb2 HV.
  intros Hx Hh Hc0 Hctx.
  assert (Ha : length (add_bias (madd (madd (matmul x (Wx w)) (matmul h (Wh w)))
                                   (matmul ctx (Wz w))) (b w))
               = length features).
  { rewrite length_add_bias, !length_madd, !length_matmul. lia. }
  destruct Hcell as [Hr | Hl]; unfold cell_forward; rewrite ?Hr, ?Hl; cbn [String.eqb].
  - eexists _, _. split; [reflexivity|]. split; [|exact Hc0].
    unfold rnn_step_forward. rewrite length_mmap. exact Ha.
  - replace (String.eqb "lstm" "rnn") with false by reflexivity.
    replace (String.eqb "lstm" "lstm") with true by reflexivity.
    unfold lstm_step_forward.
    destruct (split _) as [h1 c1] eqn:Hs.
    exists h1, c1. split; [reflexivity|].
    pose proof (fst_split_map (map2 (lstm_row (length (Wh w)))
      (add_bias (madd (madd (matmul x (Wx w)) (matmul h (Wh w)))
                   (matmul ctx (Wz w))) (b w)) c)) as H1.
    pose proof (snd_split_map (map2 (lstm_row (length (Wh w)))
      (add_bias (madd (madd (matmul x (Wx w)) (matmul h (Wh w)))
                   (matmul ctx (Wz w))) (b w)) c)) as H2.
    rewrite Hs in H1, H2. cbn [fst snd] in H1, H2. subst h1 c1.
    rewrite !length_map, length_map2, Ha. lia.
Qed.

Lemma sample_decode_shape (x h ctx : mat) :
  length x = length features -> length h = length features ->
  length ctx = length features ->
  words_ok w (length features) (argmax (sample_decode self w x h ctx)).
Proof using Hb2 HV.
  clear Hcell Hfeat.
  intros Hx Hh Hctx. unfold words_ok, argmax, sample_decode. split.
  - rewrite length_map, length_affine_forward. unfold tanh.
    rewrite length_mmap. unfold decode_logits.
    destruct (prev2out self), (ctx2out self);
      rewrite ?length_madd, ?length_matmul, ?length_affine_forward; lia.
  - apply Forall_map.
    eapply List.Forall_impl; [|apply affine_forward_row_length].
    intros row Hrow. unfold in_vocab. cbn beta.
    destruct row as [|r row'].
    + cbn. lia.
    + pose proof (argmax_row_bound (r :: row')) as Hb.
      assert (r :: row' <> []) as Hne by discriminate.
      specialize (Hb Hne). lia.
Qed.

End SamplerShapes.

Section SamplerLoop.
Context {E : Engine}.
Variables (self : Config) (w : Weights) (features : ten3) (st : Z).
Hypothesis Hcell : cell_type self = "rnn" \/ cell_type self = "lstm".
Hypothesis Hfeat : Forall (fun f => length f = L self) features.
Hypothesis Hb2 : length (b2_decode w) <= length (W_embed w).
Hypothesis Hstart : _start self = Some st.
Hypothesis Hst : in_vocab w st.

Lemma sample_input_shape (k : nat) (s : sample_state) :
  sampler_inv self w (length features) k s ->
  exists x, sample_input self w (length features) k s = Ok x /\
            length x = length features.
Proof.
  intros Hinv. unfold sample_input, sampler_words.
  destruct k as [|k]; cbn [Nat.eqb].
  - rewrite Hstart. cbn [fill rbind].
    destruct (embed_in_vocab w st Hst) as [e He].
    rewrite (embed_repeat (W_embed w) st e (length features) He).
    eexists. split; [reflexivity|]. apply repeat_length.
  - destruct Hinv as (_ & _ & _ & _ & _ & _ & Hw).
    destruct Hw as [ws [Hws [Hlen Hin]]]; [lia|].
    rewrite Hws. cbn [rbind].
    destruct (mapM_result_ok (embed (W_embed w)) ws) as [x [Hx Hxl]].
    + eapply List.Forall_impl; [|exact Hin]. intros c. apply embed_in_vocab.
    + exists x. split; [exact Hx | congruence].
Qed.

Lemma sample_step_inv (k : nat) (s : sample_state) :
  sampler_inv self w (length features) k s ->
  exists s1,
    sample_step self w features (project_feature features (W_proj_x w)) k s
    = Ok s1 /\
    sampler_inv self w (length features) (S k) s1.
Proof.
  intros Hinv.
  assert (HV : 0 < length (W_embed w)) by (destruct Hst; lia).
  destruct (sample_input_shape k s Hinv) as [x [Hx Hxl]].
  destruct Hinv as (Hh & Hc & Hwl & Hal & Hws & Has & _).
  destruct (attention_shape self w features Hfeat (sprev_h s) Hh)
    as [Hctx Halpha].
  unfold sample_step, sample_forward. rewrite Hx. cbn [rbind].
  destruct (attention_forward _ _ _ _ _ _) as [ctx alpha].
  cbn [fst snd] in Hctx, Halpha.
  pose proof (select_context_length self w features (sprev_h s) ctx Hh Hctx)
    as Hsel.
  destruct (cell_forward_shape self w features Hcell x (sprev_h s) (sprev_c s)
              (select_context self w (sprev_h s) ctx) Hxl Hh Hc Hsel)
    as [h1 [c1 [Hcf [Hh1 Hc1]]]].
  rewrite Hcf. cbn [rbind].
  pose proof (sample_decode_shape self w features Hb2 HV x h1
                (select_context self w (sprev_h s) ctx) Hxl Hh1 Hsel) as Hword.
  eexists. split; [reflexivity|].
  unfold sampler_inv.
  cbn [sprev_h sprev_c sampled_word sampled_word_list salpha_list
       out_h out_c out_alpha out_logits].
  repeat split; try assumption.
  - rewrite length_app. cbn. lia.
  - rewrite length_app. cbn. lia.
  - apply Forall_app. split; [exact Hws|]. constructor; [exact Hword|constructor].
  - apply Forall_app. split; [exact Has|]. constructor; [exact Halpha|constructor].
  - intros _. eexists. split; [reflexivity | exact Hword].
Qed.

Lemma sample_loop_inv (len k : nat) (s : sample_state) :
  sampler_inv self w (length features) k s ->
  exists s1,
    for_loop (sample_step self w features
                (project_feature features (W_proj_x w))) (seq k len) s = Ok s1 /\
    sampler_inv self w (length features) (k + len) s1.
Proof.
  revert k s. induction len as [|len IH]; intros k s Hinv.
  - exists s. rewrite Nat.add_0_r. split; [reflexivity | exact Hinv].
  - destruct (sample_step_inv k s Hinv) as [s1 [Hs1 Hinv1]].
    destruct (IH (S k) s1 Hinv1) as [s2 [Hs2 Hinv2]].
    exists s2. cbn [seq for_loop]. rewrite Hs1. cbn [rbind].
    split; [exact Hs2|]. replace (k + S len) with (S k + len) by lia.
    exact Hinv2.
Qed.

Lemma sample_init_inv :
  sampler_inv self w (length features) 0 (sample_init w features).
Proof.
  unfold sampler_inv, sample_init.
  cbn [sprev_h sprev_c sampled_word sampled_word_list salpha_list].
  rewrite !length_init_lstm_default. unfold reduce_mean_1. rewrite length_map.
  repeat split; try constructor. intros H0. lia.
Qed.

End SamplerLoop.

Lemma weights_shaped_vocab {E : Engine} (self : Config) (w : Weights) :
  weights_shaped self w = true ->
  length (W_embed w) = V self /\ length (b2_decode w) = V self.
Proof.
  unfold weights_shaped. destruct (dim_mul (cell_type self)); [|discriminate].
  intros Hw.
  repeat match goal with
         | H : (_ && _) = true |- _ => apply andb_prop in H; destruct H
         end.
  split.
  - match goal with
    | H : has_shape (V self) (M self) (W_embed w) = true |- _ =>
        unfold has_shape in H; apply andb_prop in H; destruct H as [H _];
        apply Nat.eqb_eq in H; exact H
    end.
  - match goal with
    | H : (length (b2_decode w) =? V self)%nat = true |- _ =>
        apply Nat.eqb_eq in H; exact H
    end.
Qed.

(** C7, as the code has it.  When the vocabulary has a start token whose
    index has an embedding row, the variables have the shapes [__init__]
    gives them, every image has [L] locations and [max_len] is at least 1,
    the sampler runs its [max_len] steps, none skipped and none added, and
    returns [max_len] attention maps over the [L] locations and [max_len]
    word indices in [0, V) for each of the [N] images. *)
Theorem sampler_output_shape :
  forall (E : Engine) (self : Config) (w : Weights) (features : ten3)
         (max_len : nat) (st : Z),
    cell_type self = "rnn" \/ cell_type self = "lstm" ->
    _start self = Some st ->
    (0 <= st < Z.of_nat (V self))%Z ->
    weights_shaped self w = true ->
    Forall (fun f => length f = L self) features ->
    0 < max_len ->
    exists s alphas caps,
      sample_unroll self w features max_len = Ok s /\
      length (salpha_list s) = max_len /\
      length (sampled_word_list s) = max_len /\
      build_sampler self w features max_len = Ok (alphas, caps) /\
      length alphas = length features /\
      Forall (fun a => length a = max_len /\
                       Forall (fun m => length m = L self) a) alphas /\
      length caps = length features /\
      Forall (fun c => length c = max_len /\
                       Forall (fun i => (0 <= i < Z.of_nat (V self))%Z) c) caps.
Proof.
  intros E self w features max_len st Hcell Hstart Hst Hw Hfeat Hlen.
  destruct (weights_shaped_vocab self w Hw) as [HWe Hb2].
  assert (Hb2' : length (b2_decode w) <= length (W_embed w)) by lia.
  assert (Hst' : in_vocab w st) by (unfold in_vocab; rewrite HWe; exact Hst).
  destruct (sample_loop_inv self w features st Hcell Hfeat Hb2' Hstart Hst'
              max_len 0 (sample_init w features)) as [s [Hs Hinv]].
  { apply sample_init_inv. exact Hb2'. }
  cbn [Nat.add] in Hinv.
  destruct Hinv as (_ & _ & Hwl & Hal & Hws & Has & _).
  destruct (pack_transpose_shape (fun m : vec => length m = L self)
              (length features) (salpha_list s)) as [alphas [Ha [Hna Hfa]]].
  { intros Hnil. rewrite Hnil in Hal. cbn in Hal. lia. }
  { exact Has. }
  destruct (pack_transpose_shape (in_vocab w)
              (length features) (sampled_word_list s)) as [caps [Hc [Hnc Hfc]]].
  { intros Hnil. rewrite Hnil in Hwl. cbn in Hwl. lia. }
  { exact Hws. }
  exists s, alphas, caps.
  split; [exact Hs|]. split; [exact Hal|]. split; [exact Hwl|].
  split.
  { unfold build_sampler. unfold sample_unroll in Hs. unfold sample_unroll.
    rewrite Hs. cbn [rbind]. rewrite Ha. cbn [rbind]. rewrite Hc. reflexivity. }
  split; [exact Hna|]. split.
  { rewrite Hal in Hfa. exact Hfa. }
  split; [exact Hnc|].
  rewrite Hwl in Hfc. eapply List.Forall_impl; [|exact Hfc].
  intros c [Hcl Hcv]. split; [exact Hcl|].
  eapply List.Forall_impl; [|exact Hcv].
  intros i. unfold in_vocab. rewrite HWe. auto.
Qed.

Lemma sampler_output_shape_witness :
  exists s alphas caps,
    sample_unroll (scenario "rnn" true true 0 true false)
      (zero_weights (scenario "rnn" true true 0 true false)) one_image 3 = Ok s /\
    length (salpha_list s) = 3 /\
    length (sampled_word_list s) = 3 /\
    build_sampler (scenario "rnn" true true 0 true false)
      (zero_weights (scenario "rnn" true true 0 true false)) one_image 3
    = Ok (alphas, caps) /\
    length alphas = 1 /\
    Forall (fun a => length a = 3 /\ Forall (fun m => length m = 4) a) alphas /\
    length caps = 1 /\
    Forall (fun c => length c = 3 /\
                     Forall (fun i => (0 <= i < 4)%Z) c) caps.
Proof.
  apply (sampler_output_shape REngine (scenario "rnn" true true 0 true false)
           (zero_weights (scenario "rnn" true true 0 true false)) one_image 3
           1%Z).
  - left. reflexivity.
  - reflexivity.
  - cbn. lia.
  - reflexivity.
  - repeat constructor.
  - lia.
Defined.

(** The sampler of a model built without a start token returns nothing,
    and neither does a sampler asked for no step at all. *)
Lemma sampler_always_returns_counterexample :
  (exists self,
      small_model vocab_nostart "rnn" true true 0 true false = Ok self /\
      build_sampler (E := REngine) self (zero_weights self) one_image 3
      = Err (EngineError "fill")) /\
  build_sampler (E := REngine) (scenario "rnn" true true 0 true false)
    (zero_weights (scenario "rnn" true true 0 true false)) one_image 0
  = Err (EngineError "transpose").
Proof.
  split.
  - eexists. split.
    + unfold small_model.
      apply (init_ok vocab_nostart [4; 3] 2 2 (Some 2) "rnn" true true 0 true
               false 4 3 2 0%Z); auto.
    + apply build_sampler_no_start. reflexivity.
  - reflexivity.
Qed.

(** ** Runs of the small model over the reals *)

Lemma tanh_0 : Rtrigo_def.tanh 0 = 0%R.
Proof.
  unfold Rtrigo_def.tanh. rewrite sinh_0. unfold Rdiv. apply Rmult_0_l.
Qed.

Lemma tanh_1_pos : (0 < Rtrigo_def.tanh 1)%R.
Proof.
  unfold Rtrigo_def.tanh, sinh, cosh.
  pose proof (exp_increasing (Ropp 1) 1 ltac:(lra)) as Hinc.
  pose proof (exp_pos 1) as H1. pose proof (exp_pos (Ropp 1)) as Hm1.
  apply Rdiv_lt_0_compat; lra.
Qed.

Lemma Q2R_half : Q2R (1 # 2) = (/ 2)%R.
Proof. unfold Q2R. cbn. lra. Qed.

Lemma Q2R_16_196 : Q2R (16 # 196) = (4 / 49)%R.
Proof. unfold Q2R. cbn. lra. Qed.

Create Rewrite HintDb rsimp.
#[local] Hint Rewrite Q2R_0 Q2R_1 Q2R_half Q2R_16_196 Rmult_0_r Rmult_0_l
  Rplus_0_l Rplus_0_r Rmult_1_r Rmult_1_l tanh_0 exp_0 Rdiv_1_r Rminus_0_l
  : rsimp.

(** evaluate a run down to the real-number expression it computes *)
Ltac run_reals :=
  cbv -[Rplus Rminus Rmult Rdiv Rinv Ropp exp ln Rtrigo_def.tanh IZR Q2R Rlt_dec];
  autorewrite with rsimp.

Lemma tiny_model_stores p2o c2o ac sel drop :
  tiny_model p2o c2o ac sel drop = Ok (tiny p2o c2o ac sel drop).
Proof.
  unfold tiny_model.
  rewrite (init_ok vocab3 [2; 1] 1 1 (Some 1) "rnn" p2o c2o ac sel drop 2 1 1 0%Z);
    auto.
Qed.

Lemma tiny_loss_kept :
  build_model (tiny true false 0 false false)
    (tiny_weights (tiny true false 0 false false)) two_locations start_a keep_all
  = Ok (- ln (exp (Rtrigo_def.tanh 1 / / 2)
              / (1 + 1 + exp (Rtrigo_def.tanh 1 / / 2))))%R.
Proof. run_reals. reflexivity. Qed.

Lemma tiny_loss_dropped :
  build_model (tiny true false 0 false false)
    (tiny_weights (tiny true false 0 false false)) two_locations start_a drop_all
  = Ok (- ln (1 / (1 + 1 + 1)))%R.
Proof. run_reals. reflexivity. Qed.

Lemma kept_differs_from_dropped :
  (- ln (exp (Rtrigo_def.tanh 1 / / 2)
         / (1 + 1 + exp (Rtrigo_def.tanh 1 / / 2))))%R
  <> (- ln (1 / (1 + 1 + 1)))%R.
Proof.
  pose proof tanh_1_pos as Ht.
  set (a := (Rtrigo_def.tanh 1 / / 2)%R).
  assert (Ha : (0 < a)%R) by (unfold a; apply Rdiv_lt_0_compat; lra).
  pose proof (exp_increasing 0 a Ha) as He. rewrite exp_0 in He.
  intros Heq. apply Ropp_eq_compat in Heq. rewrite !Ropp_involutive in Heq.
  apply ln_inv in Heq.
  - apply (f_equal (fun r => r * (1 + 1 + exp a) * 3)%R) in Heq.
    field_simplify in Heq; lra.
  - apply Rdiv_lt_0_compat; lra.
  - lra.
Qed.

(** C2, at the failing input.  The small model is built with
    [use_dropout=False]; its loss on one image and the caption "<START> a"
    is one number when the draws of line 162 keep [logits_h] and another
    when they drop it. *)
Theorem dropout_flag_leaves_loss_random :
  tiny_model true false 0 false false = Ok (tiny true false 0 false false) /\
  use_dropout (tiny true false 0 false false) = false /\
  build_model (tiny true false 0 false false)
    (tiny_weights (tiny true false 0 false false)) two_locations start_a keep_all
  <> build_model (tiny true false 0 false false)
       (tiny_weights (tiny true false 0 false false)) two_locations start_a
       drop_all.
Proof.
  split; [apply tiny_model_stores|]. split; [reflexivity|].
  rewrite tiny_loss_kept, tiny_loss_dropped.
  intros [= Heq]. exact (kept_differs_from_dropped Heq).
Qed.

(** ** The attention penalty *)

(** C1, at the failing input.  The penalty of [build_model] does not look
    at the numbers of steps and locations of the model.  For the small
    model (one step, two locations, so T/L = 1/2) with [alpha_c = 1], one
    image and a caption that is all padding, the attention is uniform and
    the total mass of each location is 1/2: the penalty of the spec is 0,
    the code adds 2 (16/196 - 1/2)^2, which is then the whole loss. *)
Theorem penalty_target_is_constant :
  (forall (E : Engine) (self : Config) (T' L' : nat) (l : list mat),
      alpha_reg (with_steps_locations self T' L') l = alpha_reg self l) /\
  tiny_model true false 1 false false = Ok (tiny true false 1 false false) /\
  exists outs,
    model_outs (tiny true false 1 false false)
      (tiny_weights (tiny true false 1 false false)) two_locations start_pad
      keep_all = Ok outs /\
    alpha_reg (tiny true false 1 false false) (map out_alpha outs)
    = Ok (2 * ((4 / 49 - 1 / 2) * (4 / 49 - 1 / 2)))%R /\
    alpha_reg_spec (tiny true false 1 false false) (map out_alpha outs)
    = Ok 0%R /\
    build_model (tiny true false 1 false false)
      (tiny_weights (tiny true false 1 false false)) two_locations start_pad
      keep_all
    = Ok (2 * ((4 / 49 - 1 / 2) * (4 / 49 - 1 / 2)))%R.
Proof.
  split; [reflexivity|]. split; [apply tiny_model_stores|].
  eexists. split; [run_reals; reflexivity|].
  split; [|split].
  - run_reals. f_equal. lra.
  - run_reals. f_equal. unfold Q2R. cbn. lra.
  - run_reals. f_equal. lra.
Qed.

(** ** Padding *)

Lemma nth_map_in_range {A B : Type} (f : A -> B) (l : list A) (t : nat)
    (d : A) (d' : B) :
  t < length l -> nth t (map f l) d' = f (nth t l d).
Proof.
  intros Ht. rewrite (nth_indep (map f l) d' (f d)).
  - apply map_nth.
  - rewrite length_map. exact Ht.
Qed.

Lemma agree_on_unmasked_eq (self : Config) (c1 c2 : list (list Z)) :
  agree_on_unmasked self c1 c2 -> c1 = c2.
Proof.
  induction 1 as [|r1 r2 c1 c2 [Hhd Htl] _ IH]; [reflexivity|].
  f_equal; [|exact IH].
  assert (Hskip : skipn 1 r1 = skipn 1 r2).
  { induction Htl as [|a c l1 l2 Hac _ IHl]; [reflexivity|].
    f_equal; [|exact IHl].
    destruct (Z.eq_dec a (_null self)) as [Ha | Ha].
    - destruct (Z.eq_dec c (_null self)) as [Hc | Hc]; [congruence|].
      apply Hac. right. exact Hc.
    - apply Hac. left. exact Ha. }
  destruct r1 as [|a1 r1], r2 as [|a2 r2]; cbn in Hhd; try congruence.
  change (r1 = r2) in Hskip. congruence.
Qed.

(** what the loss of a step reads of the logits: the rows of the images
    whose target is not the null index *)
Lemma masked_logits_unread {E : Engine} (self : Config) (t : nat) :
  forall (captions : list (list Z)) (logits1 logits2 : mat),
    Forall (fun caption => S t < length caption) captions ->
    Forall2 (fun rows caption =>
               nth (S t) caption 0%Z <> _null self -> fst rows = snd rows)
      (combine logits1 logits2) captions ->
    length logits1 = length logits2 ->
    softmax_loss logits1 (col 0%Z t (captions_out captions))
      (col false t (caption_mask self (captions_out captions)))
    = softmax_loss logits2 (col 0%Z t (captions_out captions))
        (col false t (caption_mask self (captions_out captions))).
Proof.
  intros captions logits1 logits2 Hwide Hrows Hlen.
  unfold softmax_loss, col, caption_mask, captions_out. f_equal.
  revert logits1 logits2 Hrows Hlen.
  induction Hwide as [|caption captions Hcap _ IH]; intros logits1 logits2 Hrows Hlen.
  - destruct logits1, logits2; reflexivity.
  - destruct logits1 as [|r1 logits1], logits2 as [|r2 logits2];
      try discriminate; [reflexivity|].
    cbn [combine] in Hrows. inversion Hrows as [|? ? ? ? Hrow Hrest]; subst.
    cbn [map combine map2]. f_equal.
    + unfold masked_entropy. cbn [fst snd].
      assert (Hin : t < length (skipn 1 caption))
        by (rewrite length_skipn; lia).
      rewrite (nth_map_in_range _ (skipn 1 caption) t 0%Z false Hin).
      assert (Hnth : nth t (skipn 1 caption) 0%Z = nth (S t) caption 0%Z)
        by (destruct caption; [destruct t|]; reflexivity).
      rewrite Hnth.
      destruct (nth (S t) caption 0 =? _null self)%Z eqn:Hnull; [reflexivity|].
      cbn [negb]. apply Z.eqb_neq in Hnull. cbn [fst snd] in Hrow.
      rewrite (Hrow Hnull). reflexivity.
    + apply IH; [exact Hrest | cbn in Hlen; lia].
Qed.



(** * Further properties of the constructor *)

Section ConstructorCases.
Variables (vocab : gmap string Z) (dim_feature : list nat) (dim_embed dim_hidden : nat)
  (n_time_step : option nat) (cell : string) (p2o c2o : bool) (ac : Q)
  (sel drop : bool).

Lemma init_cases :
  cell = "rnn" \/ cell = "lstm" ->
  __init__ vocab dim_feature dim_embed dim_hidden n_time_step cell p2o c2o ac
    sel drop
  = match nth_error dim_feature 0, nth_error dim_feature 1 with
    | Some L_, Some D_ =>
        match vocab !! "<NULL>" with
        | None => Err (KeyError "<NULL>")
        | Some null =>
            match n_time_step with
            | None => Err TypeError
            | Some T_ =>
                Ok {| cell_type := cell; word_to_idx := vocab; prev2out := p2o;
                      ctx2out := c2o; alpha_c := ac; selector := sel;
                      use_dropout := drop; V := size vocab; L := L_; D := D_;
                      M := dim_embed; H := dim_hidden; T := T_; _null := null;
                      _start := vocab !! "<START>" |}
            end
        end
    | _, _ => Err IndexError
    end.
Proof.
  intros Hc. unfold __init__.
  apply recognized_eqb in Hc as Hb. rewrite Hb. cbn [negb].
  destruct (nth_error dim_feature 0); [|reflexivity].
  destruct (nth_error dim_feature 1); [|reflexivity].
  destruct (vocab !! "<NULL>"); [|reflexivity].
  unfold dim_mul. destruct Hc as [-> | ->]; reflexivity.
Qed.

Lemma two_entries :
  2 <= length dim_feature <->
  exists L_ D_, nth_error dim_feature 0 = Some L_ /\ nth_error dim_feature 1 = Some D_.
Proof.
  destruct dim_feature as [|a [|c l]]; cbn; split.
  - lia.
  - intros (? & ? & [=] & _).
  - lia.
  - intros (? & ? & _ & [=]).
  - intros _. eauto.
  - lia.
Qed.

End ConstructorCases.

(** X1.  Construction succeeds exactly when the cell variant is recognized,
    [dim_feature] has at least two entries, the vocabulary has the key
    ['<NULL>'] and [n_time_step] is given. *)
Theorem init_succeeds_iff :
  forall (vocab : gmap string Z) dim_feature dim_embed dim_hidden n_time_step
         (cell : string) p2o c2o ac sel drop,
    (exists self,
        __init__ vocab dim_feature dim_embed dim_hidden n_time_step cell p2o c2o
          ac sel drop = Ok self) <->
    (cell = "rnn" \/ cell = "lstm") /\
    2 <= length dim_feature /\
    vocab !! "<NULL>" <> None /\
    n_time_step <> None.
Proof.
  intros vocab dim_feature dim_embed dim_hidden n_time_step cell p2o c2o ac sel
    drop. split.
  - intros [self Hself].
    assert (Hc : cell = "rnn" \/ cell = "lstm").
    { apply recognized_eqb. unfold __init__ in Hself.
      destruct (String.eqb cell "rnn" || String.eqb cell "lstm");
        [reflexivity | discriminate]. }
    rewrite init_cases in Hself by exact Hc.
    split; [exact Hc|].
    destruct (nth_error dim_feature 0) as [L_|] eqn:HL; [|discriminate].
    destruct (nth_error dim_feature 1) as [D_|] eqn:HD; [|discriminate].
    split; [apply two_entries; eauto|].
    destruct (vocab !! "<NULL>"); [|discriminate].
    destruct n_time_step; [|discriminate].
    split; discriminate.
  - intros (Hc & Hlen & Hnull & HT).
    apply two_entries in Hlen as (L_ & D_ & HL & HD).
    rewrite init_cases by exact Hc. rewrite HL, HD.
    destruct (vocab !! "<NULL>"); [|congruence].
    destruct n_time_step; [|congruence].
    eexists. reflexivity.
Qed.

(** X2.  With a recognized cell variant the checks fail in the order of the
    statements: a [dim_feature] with fewer than two entries raises
    [IndexError]; otherwise a vocabulary without ['<NULL>'] raises
    [KeyError]; otherwise a missing [n_time_step] (its default) raises
    [TypeError]. *)
Theorem init_error_order :
  forall (vocab : gmap string Z) dim_feature dim_embed dim_hidden n_time_step
         (cell : string) p2o c2o ac sel drop,
    cell = "rnn" \/ cell = "lstm" ->
    (length dim_feature < 2 ->
     __init__ vocab dim_feature dim_embed dim_hidden n_time_step cell p2o c2o ac
       sel drop = Err IndexError) /\
    (2 <= length dim_feature -> vocab !! "<NULL>" = None ->
     __init__ vocab dim_feature dim_embed dim_hidden n_time_step cell p2o c2o ac
       sel drop = Err (KeyError "<NULL>")) /\
    (2 <= length dim_feature -> vocab !! "<NULL>" <> None ->
     n_time_step = None ->
     __init__ vocab dim_feature dim_embed dim_hidden n_time_step cell p2o c2o ac
       sel drop = Err TypeError).
Proof.
  intros vocab dim_feature dim_embed dim_hidden n_time_step cell p2o c2o ac sel
    drop Hc.
  rewrite init_cases by exact Hc. repeat split.
  - intros Hlen. destruct dim_feature as [|a [|c l]]; cbn in *; try reflexivity.
    lia.
  - intros Hlen Hnull. apply two_entries in Hlen as (L_ & D_ & HL & HD).
    rewrite HL, HD, Hnull. reflexivity.
  - intros Hlen Hnull HT. apply two_entries in Hlen as (L_ & D_ & HL & HD).
    rewrite HL, HD, HT. destruct (vocab !! "<NULL>"); [reflexivity | congruence].
Qed.

Lemma init_error_order_witness :
  __init__ vocab4 [4] 2 2 (Some 2) "rnn" true true 0 true true = Err IndexError /\
  __init__ (∅ : gmap string Z) [4; 3] 2 2 (Some 2) "lstm" true true 0 true true
  = Err (KeyError "<NULL>") /\
  __init__ vocab4 [4; 3] 2 2 None "rnn" true true 0 true true = Err TypeError.
Proof.
  split; [|split].
  - apply (init_error_order vocab4 [4] 2 2 (Some 2) "rnn" true true 0 true true).
    + left. reflexivity.
    + cbn. lia.
  - apply (init_error_order ∅ [4; 3] 2 2 (Some 2) "lstm" true true 0 true true).
    + right. reflexivity.
    + cbn. lia.
    + reflexivity.
  - apply (init_error_order vocab4 [4; 3] 2 2 None "rnn" true true 0 true true).
    + left. reflexivity.
    + cbn. lia.
    + discriminate.
    + reflexivity.
Defined.

(** X3.  What every constructed model satisfies: its cell variant is one of
    the two recognized ones, its vocabulary size [V] is the number of words
    and at least 1, its null index is the vocabulary's entry for ['<NULL>'],
    its start index is the vocabulary's entry for ['<START>'] if there is
    one, and [L], [D] and [T] are the first two entries of [dim_feature] and
    [n_time_step]. *)
Theorem constructed_model_invariants :
  forall (vocab : gmap string Z) dim_feature dim_embed dim_hidden n_time_step
         (cell : string) p2o c2o ac sel drop self,
    __init__ vocab dim_feature dim_embed dim_hidden n_time_step cell p2o c2o ac
      sel drop = Ok self ->
    (cell_type self = "rnn" \/ cell_type self = "lstm") /\
    V self = size (word_to_idx self) /\ 1 <= V self /\
    word_to_idx self !! "<NULL>" = Some (_null self) /\
    _start self = word_to_idx self !! "<START>" /\
    nth_error dim_feature 0 = Some (L self) /\
    nth_error dim_feature 1 = Some (D self) /\
    n_time_step = Some (T self) /\
    M self = dim_embed /\ H self = dim_hidden.
Proof.
  intros vocab dim_feature dim_embed dim_hidden n_time_step cell p2o c2o ac sel
    drop self Hself.
  assert (Hc : cell = "rnn" \/ cell = "lstm").
  { apply recognized_eqb. unfold __init__ in Hself.
    destruct (String.eqb cell "rnn" || String.eqb cell "lstm");
      [reflexivity | discriminate]. }
  rewrite init_cases in Hself by exact Hc.
  destruct (nth_error dim_feature 0) as [L_|]; [|discriminate].
  destruct (nth_error dim_feature 1) as [D_|]; [|discriminate].
  destruct (vocab !! "<NULL>") as [null|] eqn:Hnull; [|discriminate].
  destruct n_time_step as [T_|]; [|discriminate].
  injection Hself as <-. cbn.
  repeat split; try assumption; try reflexivity.
  assert (Hne : size vocab <> 0).
  { apply map_size_ne_0_lookup. exists "<NULL>". rewrite Hnull. eauto. }
  lia.
Qed.

Lemma constructed_model_invariants_witness :
  (cell_type (scenario "lstm" true true 0 true true) = "rnn" \/
   cell_type (scenario "lstm" true true 0 true true) = "lstm") /\
  V (scenario "lstm" true true 0 true true)
  = size (word_to_idx (scenario "lstm" true true 0 true true)) /\
  1 <= V (scenario "lstm" true true 0 true true) /\
  word_to_idx (scenario "lstm" true true 0 true true) !! "<NULL>"
  = Some (_null (scenario "lstm" true true 0 true true)) /\
  _start (scenario "lstm" true true 0 true true)
  = word_to_idx (scenario "lstm" true true 0 true true) !! "<START>" /\
  nth_error [4; 3] 0 = Some (L (scenario "lstm" true true 0 true true)) /\
  nth_error [4; 3] 1 = Some (D (scenario "lstm" true true 0 true true)) /\
  Some 2 = Some (T (scenario "lstm" true true 0 true true)) /\
  M (scenario "lstm" true true 0 true true) = 2 /\
  H (scenario "lstm" true true 0 true true) = 2.
Proof.
  apply (constructed_model_invariants vocab4 [4; 3] 2 2 (Some 2) "lstm" true
           true 0 true true).
  apply small_model_scenario. right. reflexivity.
Defined.

(** * The reverse vocabulary *)

Lemma idx_to_word_fold (m : gmap string Z) :
  (forall i word,
      map_fold (fun (word : string) (i : Z) (acc : gmap Z string) => <[i := word]> acc)
        (∅ : gmap Z string) m !! i = Some word ->
      m !! word = Some i) /\
  (forall word i,
      m !! word = Some i ->
      is_Some (map_fold (fun (word : string) (i : Z) (acc : gmap Z string) =>
                           <[i := word]> acc) (∅ : gmap Z string) m !! i)).
Proof.
  apply (map_fold_weak_ind
           (fun (r : gmap Z string) (m : gmap string Z) =>
              (forall i word, r !! i = Some word -> m !! word = Some i) /\
              (forall word i, m !! word = Some i -> is_Some (r !! i)))).
  - split.
    + intros i word Hr. rewrite lookup_empty in Hr. discriminate.
    + intros word i Hm. rewrite lookup_empty in Hm. discriminate.
  - intros k x m' r Hk [Hsound Hcover]. split.
    + intros i word Hr. apply lookup_insert_Some in Hr as [[<- <-] | [Hne Hr]].
      * apply lookup_insert_Some. left. split; reflexivity.
      * apply Hsound in Hr. apply lookup_insert_Some. right. split; [|exact Hr].
        intros ->. rewrite Hk in Hr. discriminate.
    + intros word i Hm. apply lookup_insert_is_Some.
      destruct (decide (x = i)) as [Heq | Hne]; [left; exact Heq|].
      right. split; [exact Hne|].
      apply lookup_insert_Some in Hm as [[_ Hx] | [_ Hm]]; [congruence|].
      eapply Hcover. exact Hm.
Qed.

(** X4.  The reverse vocabulary of line 38 holds only pairs of the
    vocabulary, turned around, and it has an entry for every index of the
    vocabulary: some word that the vocabulary sends to that index. *)
Theorem idx_to_word_sound_and_covering :
  forall (self : Config),
    (forall i word,
        idx_to_word self !! i = Some word -> word_to_idx self !! word = Some i) /\
    (forall word i,
        word_to_idx self !! word = Some i ->
        exists word', idx_to_word self !! i = Some word' /\
                      word_to_idx self !! word' = Some i).
Proof.
  intros self. unfold idx_to_word.
  destruct (idx_to_word_fold (word_to_idx self)) as [Hsound Hcover].
  split; [exact Hsound|].
  intros word i Hm. destruct (Hcover word i Hm) as [word' Hw].
  exists word'. split; [exact Hw | apply Hsound; exact Hw].
Qed.

(** X5.  When no two words of the vocabulary share an index, the reverse
    vocabulary is the inverse of the vocabulary: it sends [i] to [word]
    exactly when the vocabulary sends [word] to [i]. *)
Theorem idx_to_word_inverse :
  forall (self : Config),
    (forall w1 w2 i,
        word_to_idx self !! w1 = Some i -> word_to_idx self !! w2 = Some i ->
        w1 = w2) ->
    forall word i,
      idx_to_word self !! i = Some word <-> word_to_idx self !! word = Some i.
Proof.
  intros self Hinj word i. unfold idx_to_word.
  destruct (idx_to_word_fold (word_to_idx self)) as [Hsound Hcover].
  split; [apply Hsound|].
  intros Hm. destruct (Hcover word i Hm) as [word' Hw].
  rewrite Hw. f_equal. apply (Hinj word' word i); [apply Hsound; exact Hw | exact Hm].
Qed.

Lemma vocab4_injective :
  forall (w1 w2 : string) (i : Z),
    vocab4 !! w1 = Some i -> vocab4 !! w2 = Some i -> w1 = w2.
Proof.
  intros w1 w2 i H1 H2. unfold vocab4 in H1, H2.
  repeat (apply lookup_insert_Some in H1 as [[<- <-] | [? H1]]);
    try (apply lookup_singleton_Some in H1 as [<- <-]);
    repeat (apply lookup_insert_Some in H2 as [[<- ?] | [? H2]]);
    try (apply lookup_singleton_Some in H2 as [<- ?]);
    try reflexivity; try discriminate.
Qed.

Lemma idx_to_word_inverse_witness :
  idx_to_word (scenario "lstm" true true 0 true true) !! 3%Z = Some "dog" <->
  word_to_idx (scenario "lstm" true true 0 true true) !! "dog" = Some 3%Z.
Proof.
  apply (idx_to_word_inverse (scenario "lstm" true true 0 true true)
           vocab4_injective "dog" 3%Z).
Defined.

(** * Loops *)

Section LoopLemmas.
Context {St : Type}.

Lemma for_loop_app (body : nat -> St -> result St) (ts1 ts2 : list nat) (s : St) :
  for_loop body (ts1 ++ ts2) s
  = let* s1 := for_loop body ts1 s in for_loop body ts2 s1.
Proof.
  revert s. induction ts1 as [|t ts1 IH]; intros s; [reflexivity|].
  cbn [for_loop app]. destruct (body t s) as [s1|e]; [|reflexivity].
  cbn [rbind]. apply IH.
Qed.

(** a property of the state that every step keeps, and an error no step
    raises from a state with that property *)
Lemma for_loop_errors (P : nat -> St -> Prop) (Q : error -> Prop)
    (body : nat -> St -> result St) (n k : nat) (s : St) :
  (forall t s', P t s' ->
     match body t s' with Ok s1 => P (S t) s1 | Err e => Q e end) ->
  P k s ->
  match for_loop body (seq k n) s with Ok s1 => P (k + n) s1 | Err e => Q e end.
Proof.
  intros Hstep. revert k s. induction n as [|n IH]; intros k s HP.
  - cbn. rewrite Nat.add_0_r. exact HP.
  - cbn [seq for_loop]. specialize (Hstep k s HP).
    destruct (body k s) as [s1|e]; [|exact Hstep].
    cbn [rbind]. specialize (IH (S k) s1 Hstep).
    replace (k + S n) with (S k + n) by lia. exact IH.
Qed.

End LoopLemmas.

Lemma mapM_result_errors {A B : Type} (Q : error -> Prop) (f : A -> result B)
    (l : list A) :
  (forall a e, f a = Err e -> Q e) ->
  forall e, mapM_result f l = Err e -> Q e.
Proof.
  intros Hf. induction l as [|a l IH]; intros e He; [discriminate|].
  cbn [mapM_result] in He. destruct (f a) as [y|e1] eqn:Hfa.
  - cbn [rbind] in He. destruct (mapM_result f l) as [ys|e2]; [discriminate|].
    cbn [rbind] in He. injection He as <-. apply IH. reflexivity.
  - cbn [rbind] in He. injection He as <-. eapply Hf. exact Hfa.
Qed.

Lemma init_cell_type (vocab : gmap string Z) dim_feature dim_embed dim_hidden
    n_time_step (cell : string) p2o c2o ac sel drop self :
  __init__ vocab dim_feature dim_embed dim_hidden n_time_step cell p2o c2o ac
    sel drop = Ok self ->
  cell_type self = "rnn" \/ cell_type self = "lstm".
Proof.
  intros Hself.
  assert (Hc : cell = "rnn" \/ cell = "lstm").
  { apply recognized_eqb. unfold __init__ in Hself.
    destruct (String.eqb cell "rnn" || String.eqb cell "lstm");
      [reflexivity | discriminate]. }
  rewrite init_cases in Hself by exact Hc.
  destruct (nth_error dim_feature 0); [|discriminate].
  destruct (nth_error dim_feature 1); [|discriminate].
  destruct (vocab !! "<NULL>"); [|discriminate].
  destruct n_time_step; [|discriminate].
  injection Hself as <-. exact Hc.
Qed.

(** * No driver reads an unbound variable *)

Section Bound.
Context {E : Engine}.
Variables (self : Config) (w : Weights).
Hypothesis Hcell : cell_type self = "rnn" \/ cell_type self = "lstm".

Lemma embed_errors (i : Z) (e : error) :
  embed (W_embed w) i = Err e -> e = EngineError "gather".
Proof.
  unfold embed. destruct (i <? 0)%Z; [congruence|].
  destruct (nth_error (W_embed w) (Z.to_nat i)); congruence.
Qed.

Lemma word_embedding_errors (x : list Z) (e : error) :
  word_embedding_forward x (W_embed w) = Err e -> e = EngineError "gather".
Proof.
  apply (mapM_result_errors (fun e => e = EngineError "gather")).
  apply embed_errors.
Qed.

Lemma word_embedding_seq_errors (x : list (list Z)) (e : error) :
  word_embedding_forward_seq x (W_embed w) = Err e -> e = EngineError "gather".
Proof.
  apply (mapM_result_errors (fun e => e = EngineError "gather")).
  intros a. apply word_embedding_errors.
Qed.

Lemma train_step_runs features fp x co mask t sg :
  exists sg1, train_step self w features fp x co mask t sg = Ok sg1.
Proof.
  destruct (train_forward_ok self w features fp x t sg Hcell) as [og Hog].
  unfold train_step. rewrite Hog. cbn [rbind]. eexists. reflexivity.
Qed.

Lemma train_loop_runs features fp x co mask ts sg :
  exists sg1, for_loop (train_step self w features fp x co mask) ts sg = Ok sg1.
Proof.
  revert sg. induction ts as [|t ts IH]; intros sg.
  - exists sg. reflexivity.
  - cbn [for_loop].
    destruct (train_step_runs features fp x co mask t sg) as [sg1 ->].
    cbn [rbind]. apply IH.
Qed.

Lemma build_model_errors features captions g e :
  build_model self w features captions g = Err e ->
  e = EngineError "gather" \/ e = EngineError "transpose".
Proof.
  unfold build_model, unroll.
  destruct (word_embedding_forward_seq _ _) as [x|e1] eqn:Hx.
  - cbn [rbind].
    destruct (train_loop_runs features (project_feature features (W_proj_x w)) x
                (captions_out captions)
                (caption_mask self (captions_out captions)) (seq 0 (T self))
                (train_init self w features g)) as [sg1 ->].
    cbn [rbind]. unfold add_alpha_reg.
    destruct (Qlt_le_dec 0 (alpha_c self)); [|discriminate].
    unfold alpha_reg, pack_transpose.
    destruct (alpha_list (fst sg1)); cbn [rbind]; [|discriminate].
    intros [= <-]. right. reflexivity.
  - cbn [rbind]. intros [= <-]. left.
    apply (word_embedding_seq_errors _ _ Hx).
Qed.

Lemma sample_step_errors features fp t s :
  (t = 0 \/ sampled_word s <> None) ->
  match sample_step self w features fp t s with
  | Ok s1 => S t = 0 \/ sampled_word s1 <> None
  | Err e => e = EngineError "fill" \/ e = EngineError "gather"
  end.
Proof.
  intros Hb. unfold sample_step, sample_forward, sample_input.
  assert (Hwords : match sampler_words self (length features) t s with
                   | Ok _ => True
                   | Err e => e = EngineError "fill"
                   end).
  { unfold sampler_words. destruct (Nat.eqb t 0) eqn:Ht.
    - unfold fill. destruct (_start self); [exact I | reflexivity].
    - apply Nat.eqb_neq in Ht. destruct Hb as [Hb | Hb]; [lia|].
      destruct (sampled_word s); [exact I | congruence]. }
  destruct (sampler_words self (length features) t s) as [words|e];
    [|cbn [rbind]; left; exact Hwords].
  cbn [rbind].
  destruct (word_embedding_forward words (W_embed w)) as [x|e] eqn:Hx;
    [|cbn [rbind]; right; apply (word_embedding_errors _ _ Hx)].
  cbn [rbind].
  destruct (attention_forward _ _ _ _ _ _) as [context alpha].
  destruct (cell_forward_ok self w x (sprev_h s) (sprev_c s)
              (select_context self w (sprev_h s) context) Hcell) as [[h c] ->].
  cbn [rbind sampled_word]. right. discriminate.
Qed.

Lemma build_sampler_errors features max_len e :
  build_sampler self w features max_len = Err e ->
  e = EngineError "fill" \/ e = EngineError "gather" \/ e = EngineError "transpose".
Proof.
  unfold build_sampler, sample_unroll.
  pose proof (for_loop_errors
                (fun t s => t = 0 \/ sampled_word s <> None)
                (fun e => e = EngineError "fill" \/ e = EngineError "gather")
                (sample_step self w features (project_feature features (W_proj_x w)))
                max_len 0 (sample_init w features)
                (sample_step_errors features _)
                (or_introl eq_refl)) as Hloop.
  destruct (for_loop _ _ _) as [s|e1].
  - cbn [rbind]. unfold pack_transpose.
    destruct (salpha_list s); cbn [rbind]; [intros [= <-]; auto|].
    destruct (sampled_word_list s); cbn [rbind]; [intros [= <-]; auto|].
    discriminate.
  - cbn [rbind]. intros [= <-]. tauto.
Qed.

End Bound.

(** X6.  The training driver of a constructed model never reads an unbound
    variable: the [if]/[elif] on the cell variant of lines 143-149 has no
    [else], and [__init__] has let through only the two variants it covers.
    Whatever the weights, the features and the captions are, a failure of
    [build_model] is a failure of an operation of the engine. *)
Theorem build_model_never_unbound :
  forall (E : Engine) (vocab : gmap string Z) dim_feature dim_embed dim_hidden
         n_time_step (cell : string) p2o c2o ac sel drop self,
    __init__ vocab dim_feature dim_embed dim_hidden n_time_step cell p2o c2o ac
      sel drop = Ok self ->
    forall (w : Weights) features captions g e,
      build_model self w features captions g = Err e ->
      (forall name, e <> NameError name) /\ exists op, e = EngineError op.
Proof.
  intros E vocab dim_feature dim_embed dim_hidden n_time_step cell p2o c2o ac
    sel drop self Hself w features captions g e He.
  pose proof (init_cell_type _ _ _ _ _ _ _ _ _ _ _ _ Hself) as Hc.
  destruct (build_model_errors self w Hc features captions g e He) as [-> | ->];
    (split; [discriminate | eexists; reflexivity]).
Qed.

Lemma build_model_never_unbound_witness :
  small_model vocab4 "lstm" true true 0 true true
  = Ok (scenario "lstm" true true 0 true true) /\
  forall (w : Weights) features captions g e,
    build_model (scenario "lstm" true true 0 true true) w features captions g
    = Err e ->
    (forall name, e <> NameError name) /\ exists op, e = EngineError op.
Proof.
  split.
  - apply small_model_scenario. right. reflexivity.
  - apply (build_model_never_unbound REngine vocab4 [4; 3] 2 2 (Some 2) "lstm"
             true true 0 true true).
    apply small_model_scenario. right. reflexivity.
Defined.

(** X7.  The sampling driver of a constructed model never reads an unbound
    variable either: [h] is bound by one of the two branches of lines
    218-224, and [sampled_word], read at every step but the first, has been
    bound by the step before (line 236).  A failure of [build_sampler] is a
    failure of an operation of the engine. *)
Theorem build_sampler_never_unbound :
  forall (E : Engine) (vocab : gmap string Z) dim_feature dim_embed dim_hidden
         n_time_step (cell : string) p2o c2o ac sel drop self,
    __init__ vocab dim_feature dim_embed dim_hidden n_time_step cell p2o c2o ac
      sel drop = Ok self ->
    forall (w : Weights) features max_len e,
      build_sampler self w features max_len = Err e ->
      (forall name, e <> NameError name) /\ exists op, e = EngineError op.
Proof.
  intros E vocab dim_feature dim_embed dim_hidden n_time_step cell p2o c2o ac
    sel drop self Hself w features max_len e He.
  pose proof (init_cell_type _ _ _ _ _ _ _ _ _ _ _ _ Hself) as Hc.
  destruct (build_sampler_errors self w Hc features max_len e He)
    as [-> | [-> | ->]];
    (split; [discriminate | eexists; reflexivity]).
Qed.

Lemma build_sampler_never_unbound_witness :
  small_model vocab4 "rnn" true true 0 true true
  = Ok (scenario "rnn" true true 0 true true) /\
  forall (w : Weights) features max_len e,
    build_sampler (scenario "rnn" true true 0 true true) w features max_len
    = Err e ->
    (forall name, e <> NameError name) /\ exists op, e = EngineError op.
Proof.
  split.
  - apply small_model_scenario. left. reflexivity.
  - apply (build_sampler_never_unbound REngine vocab4 [4; 3] 2 2 (Some 2) "rnn"
             true true 0 true true).
    apply small_model_scenario. left. reflexivity.
Defined.

(** * What the drivers do not read *)

Ltac unfold_drivers :=
  unfold build_model, unroll, train_init, add_alpha_reg, alpha_reg,
    caption_mask, captions_in, captions_out, train_step, train_forward,
    train_decode, build_sampler, sample_unroll, sample_init, sample_step,
    sample_forward, sample_input, sampler_words, sample_decode, decode_logits,
    select_context, cell_forward.

(** X8.  [W_ctx2out] exists only in a model built with [ctx2out] (lines
    82-83), and a model built without it never reads it: neither driver
    depends on the value in its place. *)
Theorem ctx2out_weights_unread :
  forall (E : Engine) (self : Config) (w : Weights) (Wc : mat),
    ctx2out self = false ->
    (forall features captions g,
        build_model self (with_ctx2out_weights w Wc) features captions g
        = build_model self w features captions g) /\
    (forall features max_len,
        build_sampler self (with_ctx2out_weights w Wc) features max_len
        = build_sampler self w features max_len).
Proof.
  intros E self w Wc Hc. split; intros; unfold_drivers; rewrite Hc; reflexivity.
Qed.

Lemma ctx2out_weights_unread_witness :
  ctx2out (scenario "lstm" true false 0 true true) = false /\
  forall features max_len,
    build_sampler (scenario "lstm" true false 0 true true)
      (with_ctx2out_weights (zero_weights (scenario "lstm" true false 0 true true))
         []) features max_len
    = build_sampler (scenario "lstm" true false 0 true true)
        (zero_weights (scenario "lstm" true false 0 true true)) features max_len.
Proof.
  split.
  - reflexivity.
  - apply (proj2 (ctx2out_weights_unread REngine
                    (scenario "lstm" true false 0 true true)
                    (zero_weights (scenario "lstm" true false 0 true true)) []
                    eq_refl)).
Defined.

(** X9.  [W_sel] and [b_sel] exist only in a model built with [selector]
    (lines 86-88), and a model built without it never reads them: neither
    driver depends on the values in their place. *)
Theorem selector_weights_unread :
  forall (E : Engine) (self : Config) (w : Weights) (Ws : mat) (bs : vec),
    selector self = false ->
    (forall features captions g,
        build_model self (with_selector_weights w Ws bs) features captions g
        = build_model self w features captions g) /\
    (forall features max_len,
        build_sampler self (with_selector_weights w Ws bs) features max_len
        = build_sampler self w features max_len).
Proof.
  intros E self w Ws bs Hs. split; intros; unfold_drivers; rewrite Hs; reflexivity.
Qed.

Lemma selector_weights_unread_witness :
  selector (scenario "rnn" true true 0 false true) = false /\
  forall features captions g,
    build_model (scenario "rnn" true true 0 false true)
      (with_selector_weights (zero_weights (scenario "rnn" true true 0 false true))
         [] []) features captions g
    = build_model (scenario "rnn" true true 0 false true)
        (zero_weights (scenario "rnn" true true 0 false true)) features captions g.
Proof.
  split.
  - reflexivity.
  - apply (proj1 (selector_weights_unread REngine
                    (scenario "rnn" true true 0 false true)
                    (zero_weights (scenario "rnn" true true 0 false true)) [] []
                    eq_refl)).
Defined.

(** X10.  The sampler does not read the training options: it never
    applies dropout, whatever [use_dropout] is, its number of steps is
    [max_len] and not [T], and [alpha_c] does not enter.  A model built with
    other values of the three gives the same captions and attention maps. *)
Theorem sampler_ignores_training_options :
  forall (E : Engine) (self : Config) (w : Weights) features max_len
         (drop : bool) (a : Q) (T' : nat),
    build_sampler (with_training_options self drop a T') w features max_len
    = build_sampler self w features max_len.
Proof.
  intros E self w features max_len drop a T'.
  unfold_drivers. reflexivity.
Qed.

(** X11.  The training driver does not read the vocabulary: neither the
    words nor the start index enter the loss.  A model built over another
    vocabulary of the same size and with the same null index, with or
    without ['<START>'], gives the same loss. *)
Theorem build_model_ignores_vocabulary :
  forall (E : Engine) (self : Config) (w : Weights) (vocab : gmap string Z)
         features captions g,
    size vocab = V self ->
    vocab !! "<NULL>" = Some (_null self) ->
    build_model (with_vocabulary self vocab) w features captions g
    = build_model self w features captions g.
Proof.
  intros E self w vocab features captions g _ _.
  unfold_drivers. reflexivity.
Qed.

Lemma build_model_ignores_vocabulary_witness :
  _start (with_vocabulary (scenario "rnn" true true 0 true true) vocab4_nostart)
  = None /\
  build_model (with_vocabulary (scenario "rnn" true true 0 true true)
                 vocab4_nostart)
    (zero_weights (scenario "rnn" true true 0 true true)) one_image a_dog keep_all
  = build_model (scenario "rnn" true true 0 true true)
      (zero_weights (scenario "rnn" true true 0 true true)) one_image a_dog
      keep_all.
Proof.
  split.
  - reflexivity.
  - apply (build_model_ignores_vocabulary REngine
             (scenario "rnn" true true 0 true true)
             (zero_weights (scenario "rnn" true true 0 true true))
             vocab4_nostart one_image a_dog keep_all); reflexivity.
Defined.

(** X12.  The penalty is added only when [alpha_c] is positive (line 169):
    a negative coefficient is not an error and is not used, it gives the
    loss of the coefficient 0. *)
Theorem nonpositive_alpha_c_unused :
  forall (E : Engine) (self : Config) (w : Weights) (a : Q) features captions g,
    (alpha_c self <= 0)%Q -> (a <= 0)%Q ->
    build_model (with_alpha_c self a) w features captions g
    = build_model self w features captions g.
Proof.
  intros E self w a features captions g Hle Ha.
  unfold build_model.
  change (unroll (with_alpha_c self a) w features captions g)
    with (unroll self w features captions g).
  destruct (unroll self w features captions g) as [sg|e]; [|reflexivity].
  cbn [rbind]. unfold add_alpha_reg. cbn [with_alpha_c alpha_c].
  destruct (Qlt_le_dec 0 a) as [Hlt | _].
  - exfalso. apply (Qlt_not_le _ _ Hlt). exact Ha.
  - destruct (Qlt_le_dec 0 (alpha_c self)) as [Hlt | _]; [|reflexivity].
    exfalso. apply (Qlt_not_le _ _ Hlt). exact Hle.
Qed.

Lemma nonpositive_alpha_c_unused_witness :
  build_model (with_alpha_c (scenario "rnn" true true 0 true true) (-3 # 1))
    (zero_weights (scenario "rnn" true true 0 true true)) one_image a_dog keep_all
  = build_model (scenario "rnn" true true 0 true true)
      (zero_weights (scenario "rnn" true true 0 true true)) one_image a_dog keep_all.
Proof.
  apply (nonpositive_alpha_c_unused REngine (scenario "rnn" true true 0 true true)
           (zero_weights (scenario "rnn" true true 0 true true)) (-3 # 1)).
  - cbn. apply Qle_refl.
  - discriminate.
Defined.

(** * The plain cell and the cell state *)

Section LoopSimulation.
Context {St : Type}.
Variable R : St -> St -> Prop.

Lemma for_loop_sim (b1 b2 : nat -> St -> result St) (ts : list nat) (s1 s2 : St) :
  (forall t a1 a2, R a1 a2 ->
     match b1 t a1, b2 t a2 with
     | Ok c1, Ok c2 => R c1 c2
     | Err e1, Err e2 => e1 = e2
     | _, _ => False
     end) ->
  R s1 s2 ->
  match for_loop b1 ts s1, for_loop b2 ts s2 with
  | Ok c1, Ok c2 => R c1 c2
  | Err e1, Err e2 => e1 = e2
  | _, _ => False
  end.
Proof.
  intros Hstep. revert s1 s2. induction ts as [|t ts IH]; intros s1 s2 HR.
  - exact HR.
  - cbn [for_loop]. specialize (Hstep t s1 s2 HR).
    destruct (b1 t s1) as [c1|e1], (b2 t s2) as [c2|e2]; cbn [rbind];
      try contradiction.
    + apply IH. exact Hstep.
    + exact Hstep.
Qed.

End LoopSimulation.

Section PlainCell.
Context {E : Engine}.
Variables (self : Config) (w : Weights).
Variables (W1 : mat) (b1 : vec) (W2 : mat) (b2 : vec).
Hypothesis Hrnn : cell_type self = "rnn".

Lemma sample_step_plain features fp t s1 s2 :
  same_but_c s1 s2 ->
  match sample_step self (with_init_c_weights w W1 b1 W2 b2) features fp t s1,
        sample_step self w features fp t s2 with
  | Ok c1, Ok c2 => same_but_c c1 c2
  | Err e1, Err e2 => e1 = e2
  | _, _ => False
  end.
Proof.
  destruct s1 as [h1 c1 sw1 swl1 al1], s2 as [h2 c2 sw2 swl2 al2].
  unfold same_but_c. cbn [sprev_h sampled_word sampled_word_list salpha_list].
  intros (-> & -> & -> & ->).
  unfold sample_step, sample_forward, sample_input, sampler_words, cell_forward,
    sample_decode, decode_logits, select_context.
  rewrite Hrnn.
  cbn [String.eqb Ascii.eqb Bool.eqb sampled_word sprev_h sprev_c
       with_init_c_weights W_embed W_proj_h b_proj W_att Wx Wh Wz b W_ctx2out
       W_sel b_sel W1_decode b1_decode W2_decode b2_decode].
  destruct (let* words := if Nat.eqb t 0 then fill (length features) (_start self)
                          else match sw2 with
                               | Some ws => Ok ws
                               | None => Err (NameError "sampled_word")
                               end in
            word_embedding_forward words (W_embed w)) as [x|e]; [|reflexivity].
  cbn [rbind].
  destruct (attention_forward _ _ _ _ _ _) as [context alpha].
  cbn [rbind sprev_h sampled_word sampled_word_list salpha_list].
  repeat split; reflexivity.
Qed.

Lemma build_sampler_plain features max_len :
  build_sampler self (with_init_c_weights w W1 b1 W2 b2) features max_len
  = build_sampler self w features max_len.
Proof.
  unfold build_sampler, sample_unroll.
  change (W_proj_x (with_init_c_weights w W1 b1 W2 b2)) with (W_proj_x w).
  pose proof (for_loop_sim same_but_c
                (sample_step self (with_init_c_weights w W1 b1 W2 b2) features
                   (project_feature features (W_proj_x w)))
                (sample_step self w features (project_feature features (W_proj_x w)))
                (seq 0 max_len)
                (sample_init (with_init_c_weights w W1 b1 W2 b2) features)
                (sample_init w features)
                (sample_step_plain features _)) as Hsim.
  assert (Hinit : same_but_c
                    (sample_init (with_init_c_weights w W1 b1 W2 b2) features)
                    (sample_init w features)).
  { unfold same_but_c, sample_init. cbn. repeat split; reflexivity. }
  specialize (Hsim Hinit).
  destruct (for_loop _ _ _) as [c1|e1], (for_loop _ _ _) as [c2|e2];
    try contradiction.
  - destruct Hsim as (_ & _ & Hw & Ha). cbn [rbind]. rewrite Hw, Ha. reflexivity.
  - cbn [rbind]. rewrite Hsim. reflexivity.
Qed.

End PlainCell.

(** X13.  With the plain cell the cell state is initialized (line 195) and
    carried, but never read by anything that reaches the outputs: the
    captions and attention maps of the sampler do not depend on the four
    variables of the cell-state initializer. *)
Theorem plain_cell_ignores_cell_state :
  forall (E : Engine) (self : Config) (w : Weights) (W1 : mat) (b1 : vec)
         (W2 : mat) (b2 : vec) features max_len,
    cell_type self = "rnn" ->
    build_sampler self (with_init_c_weights w W1 b1 W2 b2) features max_len
    = build_sampler self w features max_len.
Proof.
  intros E self w W1 b1 W2 b2 features max_len Hrnn.
  apply build_sampler_plain. exact Hrnn.
Qed.

Lemma plain_cell_ignores_cell_state_witness :
  build_sampler (scenario "rnn" true true 0 true true)
    (with_init_c_weights (zero_weights (scenario "rnn" true true 0 true true))
       [] [] [] []) one_image 3
  = build_sampler (scenario "rnn" true true 0 true true)
      (zero_weights (scenario "rnn" true true 0 true true)) one_image 3.
Proof.
  apply (plain_cell_ignores_cell_state REngine
           (scenario "rnn" true true 0 true true)
           (zero_weights (scenario "rnn" true true 0 true true)) [] [] [] []
           one_image 3).
  reflexivity.
Defined.

(** * Teacher forcing *)

Section TeacherForcing.
Context {E : Engine}.
Variables (self : Config) (w : Weights).

Lemma train_forward_reads features fp x t sg1 sg2 :
  prev_h (fst sg1) = prev_h (fst sg2) ->
  prev_c (fst sg1) = prev_c (fst sg2) ->
  snd sg1 = snd sg2 ->
  train_forward self w features fp x t sg1 = train_forward self w features fp x t sg2.
Proof.
  destruct sg1 as [s1 g1], sg2 as [s2 g2]. cbn [fst snd].
  intros Hh Hc ->. unfold train_forward. rewrite Hh, Hc. reflexivity.
Qed.

Lemma train_outs_targets features fp x co1 m1 co2 m2 ts :
  forall sg1 sg2,
    prev_h (fst sg1) = prev_h (fst sg2) ->
    prev_c (fst sg1) = prev_c (fst sg2) ->
    snd sg1 = snd sg2 ->
    train_outs self w features fp x co1 m1 ts sg1
    = train_outs self w features fp x co2 m2 ts sg2.
Proof.
  induction ts as [|t ts IH]; intros sg1 sg2 Hh Hc Hg; [reflexivity|].
  cbn [train_outs]. unfold train_step.
  rewrite (train_forward_reads features fp x t sg1 sg2 Hh Hc Hg).
  destruct (train_forward self w features fp x t sg2) as [og|e]; [|reflexivity].
  cbn [rbind]. erewrite IH; reflexivity.
Qed.

End TeacherForcing.

(** X14.  Teacher forcing: the hidden states, attention maps and logits of
    the training steps depend on the captions only through the input
    columns [captions[:, :T]] (line 116).  The columns of line 117 that the
    model is to predict enter nothing but the loss. *)
Theorem teacher_forcing_inputs :
  forall (E : Engine) (self : Config) (w : Weights) features
         (captions1 captions2 : list (list Z)) g,
    captions_in self captions1 = captions_in self captions2 ->
    model_outs self w features captions1 g = model_outs self w features captions2 g.
Proof.
  intros E self w features captions1 captions2 g Hin.
  unfold model_outs. rewrite Hin.
  destruct (word_embedding_forward_seq _ _) as [x|e]; [|reflexivity].
  cbn [rbind]. apply train_outs_targets; reflexivity.
Qed.

Lemma teacher_forcing_inputs_witness :
  model_outs (scenario "lstm" true true 0 true true)
    (zero_weights (scenario "lstm" true true 0 true true)) one_image
    [[1; 2; 3]]%Z keep_all
  = model_outs (scenario "lstm" true true 0 true true)
      (zero_weights (scenario "lstm" true true 0 true true)) one_image
      [[1; 2; 0]]%Z keep_all.
Proof.
  apply (teacher_forcing_inputs REngine (scenario "lstm" true true 0 true true)
           (zero_weights (scenario "lstm" true true 0 true true)) one_image
           [[1; 2; 3]]%Z [[1; 2; 0]]%Z keep_all).
  reflexivity.
Defined.

(** * Longer and shorter samples *)

Section Prefix.
Context {E : Engine}.
Variables (self : Config) (w : Weights).

Lemma sample_step_grows features fp t s s1 :
  sample_step self w features fp t s = Ok s1 ->
  exists word alpha,
    sampled_word_list s1 = sampled_word_list s ++ [word] /\
    salpha_list s1 = salpha_list s ++ [alpha].
Proof.
  unfold sample_step.
  destruct (sample_forward self w features fp t s) as [o|e]; [|discriminate].
  cbn [rbind]. intros [= <-]. eexists. eexists. split; reflexivity.
Qed.

Lemma sample_loop_grows features fp ts :
  forall s s1,
    for_loop (sample_step self w features fp) ts s = Ok s1 ->
    exists words alphas,
      sampled_word_list s1 = sampled_word_list s ++ words /\
      salpha_list s1 = salpha_list s ++ alphas /\
      length words = length ts /\ length alphas = length ts.
Proof.
  induction ts as [|t ts IH]; intros s s1 Hs.
  - injection Hs as <-. exists [], []. rewrite !app_nil_r. auto.
  - cbn [for_loop] in Hs.
    destruct (sample_step self w features fp t s) as [s0|e] eqn:Hstep;
      [|discriminate].
    cbn [rbind] in Hs.
    destruct (sample_step_grows features fp t s s0 Hstep) as (word & alpha & Hw & Ha).
    destruct (IH s0 s1 Hs) as (words & alphas & Hws & Has & Hlw & Hla).
    exists (word :: words), (alpha :: alphas).
    rewrite Hws, Has, Hw, Ha, <- !app_assoc. cbn [app length].
    repeat split; congruence.
Qed.

End Prefix.

Lemma pack_transpose_extends {A : Type} (l l' : list (list A)) r1 r2 :
  pack_transpose l = Ok r1 -> pack_transpose (l ++ l') = Ok r2 ->
  Forall2 extends r1 r2.
Proof.
  destruct l as [|a l0]; [discriminate|].
  rewrite <- app_comm_cons. unfold pack_transpose.
  intros [= <-] [= <-].
  induction (seq 0 (length a)) as [|n ns IH]; cbn [map]; constructor; [|exact IH].
  rewrite flat_map_app, app_assoc. eexists. reflexivity.
Qed.

Lemma pack_transpose_returns {A : Type} (l : list (list A)) :
  l <> [] -> exists r, pack_transpose l = Ok r.
Proof.
  destruct l as [|a l0]; [congruence|]. intros _. eexists. reflexivity.
Qed.

(** X15.  Greedy decoding is causal: a sampler asked for [k + j] steps
    that returns has, in its first [k] steps, done what the sampler asked
    for [k] steps does.  The shorter sampler returns too, and each of its
    captions and each of its sequences of attention maps is the beginning
    of the longer one's. *)
Theorem sampler_prefix :
  forall (E : Engine) (self : Config) (w : Weights) features (k j : nat)
         alphas2 captions2,
    0 < k ->
    build_sampler self w features (k + j) = Ok (alphas2, captions2) ->
    exists alphas1 captions1,
      build_sampler self w features k = Ok (alphas1, captions1) /\
      Forall2 extends captions1 captions2 /\
      Forall2 extends alphas1 alphas2.
Proof.
  intros E self w features k j alphas2 captions2 Hk.
  unfold build_sampler, sample_unroll.
  rewrite seq_app, for_loop_app.
  destruct (for_loop _ (seq 0 k) _) as [s1|e] eqn:H1; [|discriminate].
  cbn [rbind].
  destruct (for_loop _ (seq (0 + k) j) s1) as [s2|e] eqn:H2; [|discriminate].
  cbn [rbind].
  destruct (sample_loop_grows self w _ _ _ _ _ H1) as (ws1 & as1 & Hw1 & Ha1 & Hlw & Hla).
  destruct (sample_loop_grows self w _ _ _ _ _ H2) as (ws2 & as2 & Hw2 & Ha2 & _ & _).
  cbn [sample_init sampled_word_list salpha_list app] in Hw1, Ha1.
  rewrite length_seq in Hlw, Hla.
  destruct (pack_transpose_returns (salpha_list s1)) as [a1 Hp1].
  { rewrite Ha1. intros ->. cbn in Hla. lia. }
  destruct (pack_transpose_returns (sampled_word_list s1)) as [c1 Hq1].
  { rewrite Hw1. intros ->. cbn in Hlw. lia. }
  rewrite Hp1, Hq1. cbn [rbind].
  destruct (pack_transpose (salpha_list s2)) as [a2|e] eqn:Hp2; [|discriminate].
  cbn [rbind].
  destruct (pack_transpose (sampled_word_list s2)) as [c2|e] eqn:Hq2; [|discriminate].
  cbn [rbind]. intros [= <- <-].
  exists a1, c1. split; [reflexivity|]. split.
  - rewrite Hw2 in Hq2. apply (pack_transpose_extends _ _ _ _ Hq1 Hq2).
  - rewrite Ha2 in Hp2. apply (pack_transpose_extends _ _ _ _ Hp1 Hp2).
Qed.

Lemma build_sampler_returns {E : Engine} (self : Config) (w : Weights)
    (features : ten3) (max_len : nat) (st : Z) :
  cell_type self = "rnn" \/ cell_type self = "lstm" ->
  _start self = Some st ->
  (0 <= st < Z.of_nat (V self))%Z ->
  weights_shaped self w = true ->
  Forall (fun f => length f = L self) features ->
  0 < max_len ->
  exists alphas caps, build_sampler self w features max_len = Ok (alphas, caps).
Proof.
  intros Hcell Hstart Hst Hw Hfeat Hlen.
  destruct (weights_shaped_vocab self w Hw) as [HWe Hb2].
  assert (Hb2' : length (b2_decode w) <= length (W_embed w)) by lia.
  assert (Hst' : in_vocab w st) by (unfold in_vocab; rewrite HWe; exact Hst).
  destruct (sample_loop_inv self w features st Hcell Hfeat Hb2' Hstart Hst'
              max_len 0 (sample_init w features)) as [s [Hs Hinv]].
  { apply sample_init_inv. exact Hb2'. }
  cbn [Nat.add] in Hinv.
  destruct Hinv as (_ & _ & Hwl & Hal & _).
  destruct (pack_transpose_returns (salpha_list s)) as [alphas Ha].
  { intros Hnil. rewrite Hnil in Hal. cbn in Hal. lia. }
  destruct (pack_transpose_returns (sampled_word_list s)) as [caps Hc].
  { intros Hnil. rewrite Hnil in Hwl. cbn in Hwl. lia. }
  exists alphas, caps. unfold build_sampler, sample_unroll.
  rewrite Hs. cbn [rbind]. rewrite Ha. cbn [rbind]. rewrite Hc. reflexivity.
Qed.

Lemma sampler_prefix_witness :
  exists alphas2 captions2 alphas1 captions1,
    build_sampler (scenario "lstm" true true 0 true false)
      (zero_weights (scenario "lstm" true true 0 true false)) one_image (2 + 1)
    = Ok (alphas2, captions2) /\
    build_sampler (scenario "lstm" true true 0 true false)
      (zero_weights (scenario "lstm" true true 0 true false)) one_image 2
    = Ok (alphas1, captions1) /\
    Forall2 extends captions1 captions2 /\
    Forall2 extends alphas1 alphas2.
Proof.
  destruct (build_sampler_returns (scenario "lstm" true true 0 true false)
              (zero_weights (scenario "lstm" true true 0 true false)) one_image
              (2 + 1) 1%Z) as (a2 & c2 & H2).
  - right. reflexivity.
  - reflexivity.
  - cbn. lia.
  - reflexivity.
  - repeat constructor.
  - lia.
  - destruct (sampler_prefix REngine (scenario "lstm" true true 0 true false)
                (zero_weights (scenario "lstm" true true 0 true false)) one_image
                2 1 a2 c2) as (a1 & c1 & H1 & Hc & Ha).
    + lia.
    + exact H2.
    + exists a2, c2, a1, c1. auto.
Defined.

(** * Inputs and targets *)

Lemma nth_firstn_below {A : Type} (d : A) (l : list A) (n i : nat) :
  i < n -> nth i (firstn n l) d = nth i l d.
Proof.
  revert n i. induction l as [|a l IH]; intros n i Hi.
  - rewrite firstn_nil. reflexivity.
  - destruct n as [|n]; [lia|]. destruct i as [|i]; [reflexivity|].
    cbn. apply IH. lia.
Qed.

(** X16.  The two slices of lines 116-117 are one sequence shifted by one:
    the word the model is to predict at step [t] is the word it is given at
    step [t + 1], as long as that step exists. *)
Theorem targets_are_next_inputs :
  forall (self : Config) (captions : list (list Z)) (t : nat),
    S t < T self ->
    col 0%Z t (captions_out captions) = col 0%Z (S t) (captions_in self captions).
Proof.
  intros self captions t Ht. unfold col, captions_out, captions_in.
  rewrite !map_map. apply map_ext. intros row.
  rewrite nth_firstn_below by exact Ht.
  destruct row as [|c row]; [destruct t; reflexivity | reflexivity].
Qed.

Lemma targets_are_next_inputs_witness :
  col 0%Z 0 (captions_out a_dog)
  = col 0%Z 1 (captions_in (scenario "rnn" true true 0 true true) a_dog).
Proof.
  apply (targets_are_next_inputs (scenario "rnn" true true 0 true true) a_dog 0).
  cbn. lia.
Defined.

(** * Dropout and the recurrent state *)

Section StateDropout.
Context {E : Engine}.
Variables (self : Config) (w : Weights).
Hypothesis Hcell : cell_type self = "rnn" \/ cell_type self = "lstm".

Lemma train_forward_state features fp x t s1 s2 g1 g2 :
  prev_h s1 = prev_h s2 -> prev_c s1 = prev_c s2 ->
  exists og1 og2,
    train_forward self w features fp x t (s1, g1) = Ok og1 /\
    train_forward self w features fp x t (s2, g2) = Ok og2 /\
    out_h (fst og1) = out_h (fst og2) /\
    out_c (fst og1) = out_c (fst og2) /\
    out_alpha (fst og1) = out_alpha (fst og2).
Proof.
  intros Hh Hc. unfold train_forward. rewrite Hh, Hc.
  destruct (attention_forward _ _ _ _ _ _) as [context alpha].
  destruct (cell_forward_ok self w (col [] t x) (prev_h s2) (prev_c s2)
              (select_context self w (prev_h s2) context) Hcell) as [[h c] ->].
  destruct (train_decode self w (col [] t x) h
              (select_context self w (prev_h s2) context) g1) as [l1 g1'].
  destruct (train_decode self w (col [] t x) h
              (select_context self w (prev_h s2) context) g2) as [l2 g2'].
  eexists. eexists. repeat split; reflexivity.
Qed.

Lemma train_outs_state features fp x co mask ts :
  forall s1 s2 g1 g2,
    prev_h s1 = prev_h s2 -> prev_c s1 = prev_c s2 ->
    exists outs1 outs2,
      train_outs self w features fp x co mask ts (s1, g1) = Ok outs1 /\
      train_outs self w features fp x co mask ts (s2, g2) = Ok outs2 /\
      map out_h outs1 = map out_h outs2 /\
      map out_c outs1 = map out_c outs2 /\
      map out_alpha outs1 = map out_alpha outs2.
Proof.
  induction ts as [|t ts IH]; intros s1 s2 g1 g2 Hh Hc.
  - exists [], []. repeat split; reflexivity.
  - destruct (train_forward_state features fp x t s1 s2 g1 g2 Hh Hc)
      as (og1 & og2 & H1 & H2 & Eh & Ec & Ea).
    cbn [train_outs]. unfold train_step. rewrite H1, H2. cbn [rbind fst snd].
    destruct (IH {| prev_h := out_h (fst og1); prev_c := out_c (fst og1);
                    loss := sadd (loss s1) (step_loss co mask t (fst og1));
                    alpha_list := alpha_list s1 ++ [out_alpha (fst og1)] |}
                 {| prev_h := out_h (fst og2); prev_c := out_c (fst og2);
                    loss := sadd (loss s2) (step_loss co mask t (fst og2));
                    alpha_list := alpha_list s2 ++ [out_alpha (fst og2)] |}
                 (snd og1) (snd og2) Eh Ec)
      as (outs1 & outs2 & Ho1 & Ho2 & Hmh & Hmc & Hma).
    rewrite Ho1, Ho2. cbn [rbind].
    exists (fst og1 :: outs1), (fst og2 :: outs2).
    cbn [map]. repeat split; try reflexivity; congruence.
Qed.

End StateDropout.

(** X17.  The dropout of the loop never reaches the recurrent state: line
    152 replaces [next_h] after lines 145 and 148 have stored it as the
    state of the next step, and line 162 acts on the decoder alone.  From
    one state, the hidden states, cell states and attention maps of all
    later steps are the same for every outcome of the draws. *)
Theorem loop_dropout_spares_state :
  forall (E : Engine) (self : Config) (w : Weights) features fp x co mask ts
         (s : train_state) (g1 g2 : rng),
    cell_type self = "rnn" \/ cell_type self = "lstm" ->
    exists outs1 outs2,
      train_outs self w features fp x co mask ts (s, g1) = Ok outs1 /\
      train_outs self w features fp x co mask ts (s, g2) = Ok outs2 /\
      map out_h outs1 = map out_h outs2 /\
      map out_c outs1 = map out_c outs2 /\
      map out_alpha outs1 = map out_alpha outs2.
Proof.
  intros E self w features fp x co mask ts s g1 g2 Hcell.
  apply train_outs_state; [exact Hcell | reflexivity | reflexivity].
Qed.

Lemma loop_dropout_spares_state_witness :
  exists outs1 outs2,
    train_outs (scenario "lstm" true true 0 true true)
      (zero_weights (scenario "lstm" true true 0 true true)) one_image
      (project_feature one_image (zeros 3 3)) [zeros 2 2] (captions_out a_dog)
      (caption_mask (scenario "lstm" true true 0 true true) (captions_out a_dog))
      (seq 0 2)
      (fst (train_init (scenario "lstm" true true 0 true true)
              (zero_weights (scenario "lstm" true true 0 true true)) one_image
              keep_all), keep_all) = Ok outs1 /\
    train_outs (scenario "lstm" true true 0 true true)
      (zero_weights (scenario "lstm" true true 0 true true)) one_image
      (project_feature one_image (zeros 3 3)) [zeros 2 2] (captions_out a_dog)
      (caption_mask (scenario "lstm" true true 0 true true) (captions_out a_dog))
      (seq 0 2)
      (fst (train_init (scenario "lstm" true true 0 true true)
              (zero_weights (scenario "lstm" true true 0 true true)) one_image
              keep_all), drop_all) = Ok outs2 /\
    map out_h outs1 = map out_h outs2 /\
    map out_c outs1 = map out_c outs2 /\
    map out_alpha outs1 = map out_alpha outs2.
Proof.
  apply (loop_dropout_spares_state REngine (scenario "lstm" true true 0 true true)
           (zero_weights (scenario "lstm" true true 0 true true))).
  right. reflexivity.
Defined.

(** * The feeds of the training graph *)

Section FedBatches.
Context {E : Engine}.
Variables (self : Config) (w : Weights).
Hypothesis Hshaped : weights_shaped self w = true.

Lemma Forall_firstn_of {A : Type} (P : A -> Prop) (n : nat) (l : list A) :
  Forall P l -> Forall P (firstn n l).
Proof.
  intros Hl. revert n. induction Hl as [|a l Ha _ IH]; intros [|n]; cbn;
    constructor; auto.
Qed.

Lemma feed_parts features captions :
  training_feed self features captions = true ->
  features_fit self features = true /\ captions_fit self captions = true /\
  length captions = length features /\ captions_in_range self captions = true.
Proof.
  unfold training_feed. intros Hfeed.
  apply andb_prop in Hfeed as [Hfeed Hrange].
  apply andb_prop in Hfeed as [Hfeed Hlen].
  apply andb_prop in Hfeed as [Hfeat Hcap].
  apply Nat.eqb_eq in Hlen. auto.
Qed.

Lemma feed_in_vocab features captions :
  training_feed self features captions = true ->
  Forall (Forall (in_vocab w)) (captions_in self captions).
Proof.
  intros Hfeed. destruct (feed_parts features captions Hfeed) as (_ & _ & _ & Hrange).
  destruct (weights_shaped_vocab self w Hshaped) as [HWe _].
  unfold captions_in. apply Forall_map. apply List.Forall_forall.
  intros row Hrow. apply Forall_firstn_of. apply List.Forall_forall.
  intros c Hc. unfold captions_in_range in Hrange.
  rewrite forallb_forall in Hrange. specialize (Hrange row Hrow).
  rewrite forallb_forall in Hrange. specialize (Hrange c Hc).
  apply andb_prop in Hrange as [Hlo Hhi].
  apply Z.leb_le in Hlo. apply Z.ltb_lt in Hhi.
  unfold in_vocab. rewrite HWe. lia.
Qed.

End FedBatches.

(** * Dropout on the decoder *)

Section DecoderDropout.
Context {E : Engine}.

Lemma dropout_vec_dropped (p : Q) (v : vec) :
  forall g, Forall2 (dropped_entry p) v (fst (dropout_vec p v g)).
Proof.
  induction v as [|x v IH]; intros g; cbn [dropout_vec]; [constructor|].
  unfold drop_entry. destruct (keep p g) as [kept g1].
  specialize (IH g1). destruct (dropout_vec p v g1) as [ys g2].
  cbn [fst] in IH |- *. constructor; [|exact IH].
  destruct kept; [left | right]; reflexivity.
Qed.

Lemma dropout_dropped (p : Q) (X : mat) :
  forall g, dropped_out p X (fst (dropout X p g)).
Proof.
  unfold dropped_out.
  induction X as [|v X IH]; intros g; cbn [dropout]; [constructor|].
  pose proof (dropout_vec_dropped p v g) as Hv.
  destruct (dropout_vec p v g) as [y g1].
  specialize (IH g1). destruct (dropout X p g1) as [Y g2].
  cbn [fst] in Hv, IH |- *. constructor; assumption.
Qed.

Variables (self : Config) (w : Weights).
Hypothesis Hcell : cell_type self = "rnn" \/ cell_type self = "lstm".

Lemma train_state_at_runs features captions g x t :
  exists s g_t, train_state_at self w features captions g x t = Ok (s, g_t).
Proof.
  unfold train_state_at.
  destruct (train_loop_runs self w Hcell features
              (project_feature features (W_proj_x w)) x (captions_out captions)
              (caption_mask self (captions_out captions)) (seq 0 t)
              (train_init self w features g)) as [[s g_t] Hs].
  exists s, g_t. exact Hs.
Qed.

Lemma train_state_at_step features captions g x t s g_t o g_out :
  train_state_at self w features captions g x t = Ok (s, g_t) ->
  train_forward self w features (project_feature features (W_proj_x w)) x t
    (s, g_t) = Ok (o, g_out) ->
  train_state_at self w features captions g x (S t)
  = Ok ({| prev_h := out_h o; prev_c := out_c o;
           loss := sadd (loss s)
                     (step_loss (captions_out captions)
                        (caption_mask self (captions_out captions)) t o);
           alpha_list := alpha_list s ++ [out_alpha o] |}, g_out).
Proof.
  unfold train_state_at. intros Hs Ho.
  rewrite seq_S, for_loop_app, Hs. cbn [rbind for_loop Nat.add].
  unfold train_step. rewrite Ho. reflexivity.
Qed.

Lemma train_forward_decoder features fp x t s g_t o g_out :
  train_forward self w features fp x t (s, g_t) = Ok (o, g_out) ->
  out_logits o
  = affine_forward
      (fst (dropout
              (tanh (decode_logits self w (col [] t x)
                       (fst (if use_dropout self
                             then dropout (out_h o) (1 # 2) g_t
                             else (out_h o, g_t)))
                       (select_context self w (prev_h s)
                          (fst (attention_forward features fp (prev_h s)
                                  (W_proj_h w) (b_proj w) (W_att w))))))
              (1 # 2)
              (snd (if use_dropout self
                    then dropout (out_h o) (1 # 2) g_t
                    else (out_h o, g_t)))))
      (W2_decode w) (b2_decode w) /\
  g_out
  = snd (dropout
           (tanh (decode_logits self w (col [] t x)
                    (fst (if use_dropout self
                          then dropout (out_h o) (1 # 2) g_t
                          else (out_h o, g_t)))
                    (select_context self w (prev_h s)
                       (fst (attention_forward features fp (prev_h s)
                               (W_proj_h w) (b_proj w) (W_att w))))))
           (1 # 2)
           (snd (if use_dropout self
                 then dropout (out_h o) (1 # 2) g_t
                 else (out_h o, g_t)))).
Proof.
  unfold train_forward.
  destruct (attention_forward _ _ _ _ _ _) as [context alpha]. cbn [fst].
  destruct (cell_forward _ _ _ _ _ _) as [[h c]|]; [|discriminate].
  unfold train_decode.
  destruct (if use_dropout self then dropout h (1 # 2) g_t else (h, g_t))
    as [h' g'] eqn:Hhg.
  destruct (dropout _ (1 # 2) g') as [lh g2] eqn:Hd.
  intros [= <- <-]. cbn [out_h out_logits].
  rewrite Hhg. cbn [fst snd]. rewrite Hd. split; reflexivity.
Qed.

End DecoderDropout.

Lemma tiny_step_kept :
  model_outs (tiny true false 0 false false)
    (tiny_weights (tiny true false 0 false false)) two_locations start_a keep_all
  = Ok [@Build_forward_out REngine [[0%R]] [[0%R]] [[(1 / (1 + 1))%R; (1 / (1 + 1))%R]]
          [[0%R; 0%R; (Rtrigo_def.tanh 1 / / 2)%R]]].
Proof. run_reals. reflexivity. Qed.

Lemma tiny_step_dropped :
  model_outs (tiny true false 0 false false)
    (tiny_weights (tiny true false 0 false false)) two_locations start_a drop_all
  = Ok [@Build_forward_out REngine [[0%R]] [[0%R]] [[(1 / (1 + 1))%R; (1 / (1 + 1))%R]]
          [[0%R; 0%R; 0%R]]].
Proof. run_reals. reflexivity. Qed.

(** C3.  In a run of [build_model], whose loss is read from the state
    after the [T] steps, for every configuration and at every step [t] of
    the loop: the state [s] in which the loop enters the step and the
    randomness [g_t] left then give the step's logits through a
    dropout with keep probability 0.5 of the tanh-activated [logits_h]:
    every entry is divided by 0.5 and multiplied by 1 where it is kept and
    by 0 where it is dropped, the draws taken from the randomness of the
    run, which goes on to the next step without them.  The flag
    [use_dropout] decides only whether the hidden state is dropped before,
    and whether the state initializer draws: without it the loop starts
    from the undropped initial states with the randomness untouched.
    The small model is built with [use_dropout=False], and the logits of
    its step are not those of a pass without dropout: they depend on the
    draws. *)
Theorem decoder_dropout_every_step :
  (forall (E : Engine) (self : Config) (w : Weights) features captions (g : rng),
      cell_type self = "rnn" \/ cell_type self = "lstm" ->
      weights_shaped self w = true ->
      training_feed self features captions = true ->
      exists x,
        word_embedding_forward_seq (captions_in self captions) (W_embed w) = Ok x /\
        build_model self w features captions g
        = (let* sg := train_state_at self w features captions g x (T self) in
           let* total := add_alpha_reg self (fst sg) in
           Ok (sdiv total (to_float (length features)))) /\
        (use_dropout self = false ->
         train_state_at self w features captions g x 0
         = Ok ({| prev_h := init_lstm_default (reduce_mean_1 features)
                              (W1_init_h w) (b1_init_h w) (W2_init_h w)
                              (b2_init_h w);
                  prev_c := init_lstm_default (reduce_mean_1 features)
                              (W1_init_c w) (b1_init_c w) (W2_init_c w)
                              (b2_init_c w);
                  loss := sconst 0; alpha_list := [] |}, g)) /\
        forall t, t < T self ->
          exists s g_t o g_out,
            train_state_at self w features captions g x t = Ok (s, g_t) /\
            train_forward self w features (project_feature features (W_proj_x w))
              x t (s, g_t) = Ok (o, g_out) /\
            train_state_at self w features captions g x (S t)
            = Ok ({| prev_h := out_h o; prev_c := out_c o;
                     loss := sadd (loss s)
                               (step_loss (captions_out captions)
                                  (caption_mask self (captions_out captions)) t o);
                     alpha_list := alpha_list s ++ [out_alpha o] |}, g_out) /\
            exists h' g' logits_h,
              (h', g') = (if use_dropout self then dropout (out_h o) (1 # 2) g_t
                          else (out_h o, g_t)) /\
              logits_h
              = tanh (decode_logits self w (col [] t x) h'
                        (select_context self w (prev_h s)
                           (fst (attention_forward features
                                   (project_feature features (W_proj_x w))
                                   (prev_h s) (W_proj_h w) (b_proj w) (W_att w))))) /\
              out_logits o
              = affine_forward (fst (dropout logits_h (1 # 2) g'))
                  (W2_decode w) (b2_decode w) /\
              g_out = snd (dropout logits_h (1 # 2) g') /\
              dropped_out (1 # 2) logits_h (fst (dropout logits_h (1 # 2) g'))) /\
  (use_dropout (tiny true false 0 false false) = false /\
   exists o_kept o_dropped,
     model_outs (tiny true false 0 false false)
       (tiny_weights (tiny true false 0 false false)) two_locations start_a
       keep_all = Ok [o_kept] /\
     model_outs (tiny true false 0 false false)
       (tiny_weights (tiny true false 0 false false)) two_locations start_a
       drop_all = Ok [o_dropped] /\
     out_logits o_kept = [[0; 0; Rtrigo_def.tanh 1 / / 2]]%R /\
     out_logits o_dropped = [[0; 0; 0]]%R /\
     out_logits o_kept <> out_logits o_dropped).
Proof.
  split.
  - intros E self w features captions g Hcell Hshaped Hfeed.
    destruct (embedding_seq_ok w _ (feed_in_vocab self w Hshaped _ _ Hfeed))
      as [x [Hx _]].
    exists x. split; [exact Hx|]. split.
    { unfold build_model, unroll, train_state_at. rewrite Hx. reflexivity. }
    split.
    { intros Hd. unfold train_state_at, train_init. cbn [seq for_loop].
      rewrite Hd, !init_lstm_no_dropout. reflexivity. }
    intros t _.
    destruct (train_state_at_runs self w Hcell features captions g x t)
      as (s & g_t & Hs).
    destruct (train_forward_ok self w features
                (project_feature features (W_proj_x w)) x t (s, g_t) Hcell)
      as [[o g_out] Ho].
    exists s, g_t, o, g_out.
    split; [exact Hs|]. split; [exact Ho|].
    split; [apply (train_state_at_step self w _ _ _ _ _ _ _ _ _ Hs Ho)|].
    destruct (train_forward_decoder self w _ _ _ _ _ _ _ _ Ho) as [Hlogits Hg].
    destruct (if use_dropout self then dropout (out_h o) (1 # 2) g_t
              else (out_h o, g_t)) as [h' g'].
    cbn [fst snd] in Hlogits, Hg.
    exists h', g'. eexists. split; [reflexivity|]. split; [reflexivity|].
    split; [exact Hlogits|]. split; [exact Hg|].
    apply dropout_dropped.
  - split; [reflexivity|].
    eexists. eexists.
    split; [apply tiny_step_kept|]. split; [apply tiny_step_dropped|].
    cbn [out_logits]. split; [reflexivity|]. split; [reflexivity|].
    intros [= Heq]. pose proof tanh_1_pos as Hpos.
    assert (Hhalf : (0 < / 2)%R) by lra.
    pose proof (Rdiv_lt_0_compat _ _ Hpos Hhalf) as Hq. lra.
Qed.

Lemma decoder_dropout_every_step_witness :
  exists x,
    word_embedding_forward_seq
      (captions_in (tiny true false 0 false false) start_a)
      (W_embed (tiny_weights (tiny true false 0 false false))) = Ok x /\
    build_model (tiny true false 0 false false)
      (tiny_weights (tiny true false 0 false false)) two_locations start_a
      drop_all
    = (let* sg := train_state_at (tiny true false 0 false false)
                    (tiny_weights (tiny true false 0 false false)) two_locations
                    start_a drop_all x 1 in
       let* total := add_alpha_reg (tiny true false 0 false false) (fst sg) in
       Ok (sdiv total (to_float 1))) /\
    train_state_at (tiny true false 0 false false)
      (tiny_weights (tiny true false 0 false false)) two_locations start_a
      drop_all x 0
    = Ok (fst (train_init (tiny true false 0 false false)
                 (tiny_weights (tiny true false 0 false false)) two_locations
                 drop_all), drop_all) /\
    exists s g_t o g_out h' g' logits_h,
      train_state_at (tiny true false 0 false false)
        (tiny_weights (tiny true false 0 false false)) two_locations start_a
        drop_all x 0 = Ok (s, g_t) /\
      train_forward (tiny true false 0 false false)
        (tiny_weights (tiny true false 0 false false)) two_locations
        (project_feature two_locations
           (W_proj_x (tiny_weights (tiny true false 0 false false))))
        x 0 (s, g_t) = Ok (o, g_out) /\
      (h', g') = (out_h o, g_t) /\
      logits_h
      = tanh (decode_logits (tiny true false 0 false false)
                (tiny_weights (tiny true false 0 false false)) (col [] 0 x) h'
                (select_context (tiny true false 0 false false)
                   (tiny_weights (tiny true false 0 false false)) (prev_h s)
                   (fst (attention_forward two_locations
                           (project_feature two_locations
                              (W_proj_x (tiny_weights (tiny true false 0 false false))))
                           (prev_h s)
                           (W_proj_h (tiny_weights (tiny true false 0 false false)))
                           (b_proj (tiny_weights (tiny true false 0 false false)))
                           (W_att (tiny_weights (tiny true false 0 false false))))))) /\
      out_logits o
      = affine_forward (fst (dropout logits_h (1 # 2) g'))
          (W2_decode (tiny_weights (tiny true false 0 false false)))
          (b2_decode (tiny_weights (tiny true false 0 false false))) /\
      g_out = snd (dropout logits_h (1 # 2) g') /\
      dropped_out (1 # 2) logits_h (fst (dropout logits_h (1 # 2) g')).
Proof.
  destruct (proj1 decoder_dropout_every_step REngine
              (tiny true false 0 false false)
              (tiny_weights (tiny true false 0 false false)) two_locations
              start_a drop_all) as (x & Hx & Hrun & Hinit & Hsteps).
  - left. reflexivity.
  - reflexivity.
  - reflexivity.
  - exists x. split; [exact Hx|]. split; [exact Hrun|].
    split; [rewrite (Hinit eq_refl); reflexivity|].
    destruct (Hsteps 0) as (s & g_t & o & g_out & Hs & Ho & _ & Hd).
    + cbn. lia.
    + destruct Hd as (h' & g' & logits_h & Hhg & Hlh & Hlogits & Hg & Hdrop).
      exists s, g_t, o, g_out, h', g', logits_h.
      repeat split; assumption.
Defined.

(** * The loss is a mean over the batch *)

Section BatchMean.
Context {E : Engine}.
Variable self : Config.

Lemma map2_ext_in {A B C D : Type} (f : A -> B -> D) (f' : A -> C -> D)
    (h : B -> C) (l : list A) (m : list B) :
  (forall a c, In a l -> f a c = f' a (h c)) ->
  map2 f l m = map2 f' l (map h m).
Proof.
  revert m. induction l as [|a l IH]; intros [|c m] Hf; cbn [map2 map];
    try reflexivity.
  rewrite (Hf a c) by (left; reflexivity). f_equal.
  apply IH. intros a' c' Ha. apply Hf. right. exact Ha.
Qed.

(** the loss of line 166 is the masked cross-entropy of the spec *)
Lemma step_loss_spec (captions : list (list Z)) (t : nat) (o : forward_out) :
  captions_fit self captions = true -> t < T self ->
  step_loss (captions_out captions)
    (caption_mask self (captions_out captions)) t o
  = spec_step_entropy self captions t (out_logits o).
Proof.
  intros Hfit Ht.
  assert (Hwide : Forall (fun caption => S t < length caption) captions).
  { unfold captions_fit in Hfit. rewrite forallb_forall in Hfit.
    apply List.Forall_forall. intros caption Hin.
    specialize (Hfit caption Hin). apply Nat.eqb_eq in Hfit. lia. }
  clear Hfit Ht.
  unfold step_loss, softmax_loss, spec_step_entropy, col, caption_mask,
    captions_out.
  f_equal. generalize (out_logits o) as logits.
  induction Hwide as [|caption rest Hcap _ IH]; intros logits.
  - destruct logits; reflexivity.
  - destruct logits as [|row logits]; [reflexivity|].
    cbn [map combine map2]. rewrite IH. f_equal.
    unfold masked_entropy, spec_token_entropy. cbn [fst snd].
    assert (Hin : t < length (skipn 1 caption)) by (rewrite length_skipn; lia).
    rewrite (nth_map_in_range _ (skipn 1 caption) t 0%Z false Hin).
    assert (Hnth : nth t (skipn 1 caption) 0%Z = nth (S t) caption 0%Z)
      by (destruct caption; [destruct t|]; reflexivity).
    rewrite Hnth.
    destruct (nth (S t) caption 0 =? _null self)%Z; reflexivity.
Qed.

Lemma alpha_reg_is_spec_penalty (l : list mat) :
  alpha_reg self l
  = spec_attention_penalty (sconst (alpha_c self)) (sconst (16 # 196)) l.
Proof. reflexivity. Qed.

Lemma alpha_reg_spec_is_spec_penalty (l : list mat) :
  alpha_reg_spec self l
  = spec_attention_penalty (sconst (alpha_c self))
      (sdiv (to_float (T self)) (to_float (L self))) l.
Proof. reflexivity. Qed.

End BatchMean.

(** C6.  A run of [build_model] on a batch that fits the placeholders
    returns the total loss divided by the batch size [N], the number of
    images, and by nothing else.  The total is, accumulated from 0.0 over
    the [T] steps, the sum over the images of the cross-entropy of the
    step's logits at the target word, the targets equal to the null index
    left out; when [alpha_c] is positive the penalty is added: [alpha_c]
    times the sum of the squared distances of the total attention mass of
    each location from the target, which in the code is the constant of
    line 172 and which is the [T/L] of the spec where the two are equal. *)
Theorem loss_is_mean_over_batch :
  forall (E : Engine) (self : Config) (w : Weights) (features : ten3)
         (captions : list (list Z)) (g : rng),
    cell_type self = "rnn" \/ cell_type self = "lstm" ->
    weights_shaped self w = true ->
    training_feed self features captions = true ->
    ((0 < alpha_c self)%Q -> 0 < T self) ->
    exists outs,
      model_outs self w features captions g = Ok outs /\
      length outs = T self /\
      length captions = length features /\
      if Qlt_le_dec 0 (alpha_c self)
      then exists penalty,
          spec_attention_penalty (sconst (alpha_c self)) (sconst (16 # 196))
            (map out_alpha outs) = Ok penalty /\
          (sdiv (to_float (T self)) (to_float (L self)) = sconst (16 # 196) ->
           alpha_reg_spec self (map out_alpha outs) = Ok penalty) /\
          build_model self w features captions g
          = Ok (sdiv (sadd (spec_entropy_total self captions (map out_logits outs))
                        penalty)
                  (to_float (length features)))
      else build_model self w features captions g
           = Ok (sdiv (spec_entropy_total self captions (map out_logits outs))
                   (to_float (length features))).
Proof.
  intros E self w features captions g Hc Hshaped Hfeed HT.
  destruct (feed_parts self features captions Hfeed) as (_ & Hfit & HN & _).
  destruct (embedding_seq_ok w _ (feed_in_vocab self w Hshaped _ _ Hfeed))
    as [x [Hx _]].
  destruct (train_loop_invariant self w features
              (project_feature features (W_proj_x w)) x
              (captions_out captions)
              (caption_mask self (captions_out captions))
              (seq 0 (T self)) Hc (train_init self w features g))
    as [outs [sg1 [Houts [Hloop [Hlen [Hloss Hal]]]]]].
  assert (Hinit : loss (fst (train_init self w features g)) = sconst 0 /\
                  alpha_list (fst (train_init self w features g)) = []).
  { unfold train_init.
    destruct (init_lstm _ _ _ _ _ _ _) as [h0 g0].
    destruct (init_lstm _ _ _ _ _ _ _) as [c0 g1]. split; reflexivity. }
  destruct Hinit as [Hl0 Ha0]. rewrite Hl0 in Hloss. rewrite Ha0 in Hal.
  cbn [app] in Hal.
  assert (Htotal : loss (fst sg1)
                   = spec_entropy_total self captions (map out_logits outs)).
  { rewrite Hloss. unfold spec_entropy_total. f_equal.
    apply map2_ext_in. intros t o Ht. apply in_seq in Ht.
    apply step_loss_spec; [exact Hfit | lia]. }
  exists outs. split; [|split; [|split]].
  - unfold model_outs. rewrite Hx. cbn [rbind]. exact Houts.
  - rewrite Hlen, length_seq. reflexivity.
  - exact HN.
  - unfold build_model, unroll. rewrite Hx. cbn [rbind].
    rewrite Hloop. cbn [rbind]. unfold add_alpha_reg.
    destruct (Qlt_le_dec 0 (alpha_c self)) as [Hpos | Hle].
    + rewrite Hal, alpha_reg_is_spec_penalty. specialize (HT Hpos).
      assert (Hne : map out_alpha outs <> []).
      { destruct outs; cbn in *; [rewrite length_seq in Hlen; lia | discriminate]. }
      destruct (pack_transpose_returns (map out_alpha outs) Hne) as [stacked Hst].
      unfold spec_attention_penalty at 1 2. rewrite Hst. cbn [rbind].
      eexists. split; [reflexivity|]. split.
      * intros Htarget. rewrite alpha_reg_spec_is_spec_penalty, Htarget.
        unfold spec_attention_penalty. rewrite Hst. reflexivity.
      * rewrite Htotal. reflexivity.
    + cbn [rbind]. rewrite Htotal. reflexivity.
Qed.

Lemma loss_is_mean_over_batch_witness :
  exists outs penalty,
    model_outs (scenario "rnn" true true (1 # 2) true false)
      (zero_weights (scenario "rnn" true true (1 # 2) true false)) one_image a_dog
      keep_all = Ok outs /\
    length outs = 2 /\
    spec_attention_penalty (sconst (1 # 2)) (sconst (16 # 196))
      (map out_alpha outs) = Ok penalty /\
    build_model (scenario "rnn" true true (1 # 2) true false)
      (zero_weights (scenario "rnn" true true (1 # 2) true false)) one_image a_dog
      keep_all
    = Ok (sdiv (sadd (spec_entropy_total (scenario "rnn" true true (1 # 2) true false)
                        a_dog (map out_logits outs)) penalty)
            (to_float 1)).
Proof.
  destruct (loss_is_mean_over_batch REngine
              (scenario "rnn" true true (1 # 2) true false)
              (zero_weights (scenario "rnn" true true (1 # 2) true false))
              one_image a_dog keep_all) as (outs & Houts & Hlen & _ & Hloss).
  - left. reflexivity.
  - reflexivity.
  - reflexivity.
  - intros _. cbn. lia.
  - destruct (Qlt_le_dec 0 (alpha_c (scenario "rnn" true true (1 # 2) true false)))
      as [_ | Hle].
    + destruct Hloss as (penalty & Hpen & _ & Hbuild).
      exists outs, penalty. repeat split; assumption.
    + exfalso. revert Hle. cbn. unfold Qle. cbn. lia.
Defined.

(** * Greedy decoding, step by step *)

Section Widths.
Context {E : Engine}.

Lemma length_vecmat (x : vec) (W : mat) : length (vecmat x W) = ncols W.
Proof. unfold vecmat. rewrite length_map, length_seq. reflexivity. Qed.

Lemma affine_forward_width (X W : mat) (c : vec) (n : nat) :
  ncols W = n -> length c = n ->
  Forall (fun row => length row = n) (affine_forward X W c).
Proof.
  intros HW Hc. unfold affine_forward, add_bias, matmul.
  apply Forall_map. apply Forall_map. apply List.Forall_forall. intros x _.
  unfold vadd. rewrite length_map2, length_vecmat. lia.
Qed.

Lemma has_shape_ncols (r c : nat) (W : mat) :
  has_shape r c W = true -> 0 < r -> ncols W = c.
Proof.
  unfold has_shape, ncols. intros Hs Hr.
  apply andb_prop in Hs as [Hlen Hrows]. apply Nat.eqb_eq in Hlen.
  destruct W as [|row W]; [cbn in Hlen; lia|].
  cbn [forallb] in Hrows. apply andb_prop in Hrows as [Hrow _].
  apply Nat.eqb_eq in Hrow. exact Hrow.
Qed.

Lemma weights_shaped_decode (self : Config) (w : Weights) :
  weights_shaped self w = true ->
  has_shape (M self) (V self) (W2_decode w) = true.
Proof.
  unfold weights_shaped. destruct (dim_mul (cell_type self)); [|discriminate].
  intros Hw.
  repeat match goal with
         | H : (_ && _) = true |- _ => apply andb_prop in H; destruct H
         end.
  assumption.
Qed.

Lemma features_fit_locations (self : Config) (features : ten3) :
  features_fit self features = true ->
  Forall (fun f => length f = L self) features.
Proof.
  unfold features_fit. rewrite forallb_forall. intros Hfit.
  apply List.Forall_forall. intros f Hf. specialize (Hfit f Hf).
  unfold has_shape in Hfit. apply andb_prop in Hfit as [Hlen _].
  apply Nat.eqb_eq in Hlen. exact Hlen.
Qed.

End Widths.

Section Transposed.
Context {A : Type}.

Lemma pick_nth (n : nat) (l : list (list A)) :
  Forall (fun s => n < length s) l ->
  forall t,
    nth_error (flat_map (fun s => match nth_error s n with
                                  | Some x => [x]
                                  | None => []
                                  end) l) t
    = match nth_error l t with
      | Some s => nth_error s n
      | None => None
      end.
Proof.
  induction 1 as [|s l Hs _ IH]; intros t.
  - destruct t; reflexivity.
  - cbn [flat_map]. destruct (nth_error s n) as [a|] eqn:Hn.
    + destruct t as [|t]; cbn [app nth_error]; [symmetry; exact Hn | apply IH].
    + apply nth_error_None in Hn. lia.
Qed.

(** entry [t] of row [n] of the stacked and transposed tensor is entry [n]
    of the tensor stacked at position [t] *)
Lemma pack_transpose_nth (N : nat) (l r : list (list A)) :
  pack_transpose l = Ok r ->
  Forall (fun s => length s = N) l ->
  forall t s n a,
    nth_error l t = Some s -> nth_error s n = Some a ->
    exists row, nth_error r n = Some row /\ nth_error row t = Some a.
Proof.
  intros Hr Hl t s n a Ht Hn.
  assert (HnN : n < N).
  { rewrite List.Forall_forall in Hl.
    rewrite <- (Hl s (nth_error_In _ _ Ht)).
    apply nth_error_Some. rewrite Hn. discriminate. }
  destruct l as [|a0 l0]; [discriminate|].
  assert (Ha0 : length a0 = N) by (inversion Hl; assumption).
  unfold pack_transpose in Hr. injection Hr as <-.
  eexists. split.
  - rewrite nth_error_map, nth_error_seq.
    destruct (Nat.ltb n (length a0)) eqn:Hlt.
    + cbn. reflexivity.
    + apply Nat.ltb_ge in Hlt. lia.
  - pose proof (pick_nth n (a0 :: l0)) as Hpick. cbn [flat_map] in Hpick.
    rewrite Hpick.
    + rewrite Ht. exact Hn.
    + eapply List.Forall_impl; [|exact Hl]. intros s' Hs'. cbn beta in Hs' |- *.
      lia.
Qed.

End Transposed.

Section GreedyTrace.
Context {E : Engine}.
Variables (self : Config) (w : Weights) (features : ten3) (st : Z).
Hypothesis Hcell : cell_type self = "rnn" \/ cell_type self = "lstm".
Hypothesis Hfeat : Forall (fun f => length f = L self) features.
Hypothesis HWe : length (W_embed w) = V self.
Hypothesis Hb2V : length (b2_decode w) = V self.
Hypothesis HW2 : ncols (W2_decode w) = V self.
Hypothesis Hstart : _start self = Some st.
Hypothesis Hst : (0 <= st < Z.of_nat (V self))%Z.

Lemma bias_fits_vocab : length (b2_decode w) <= length (W_embed w).
Proof using HWe Hb2V. clear Hcell Hfeat HW2 Hstart Hst. lia. Qed.

Lemma start_in_vocab : in_vocab w st.
Proof using HWe Hst.
  clear Hcell Hfeat HW2 Hstart Hb2V. unfold in_vocab. rewrite HWe. exact Hst.
Qed.

Lemma sample_decode_width (x h ctx : mat) :
  Forall (fun row => length row = V self) (sample_decode self w x h ctx).
Proof using Hb2V HW2.
  clear Hcell Hfeat HWe Hstart Hst.
  unfold sample_decode. apply affine_forward_width; assumption.
Qed.

Lemma sample_forward_from (k : nat) (s : sample_state) (x : mat) :
  sampler_inv self w (length features) k s ->
  sample_input self w (length features) k s = Ok x ->
  exists o,
    sample_forward self w features (project_feature features (W_proj_x w)) k s
    = Ok o /\
    step_from self w features x (sprev_h s) (sprev_c s) o /\
    length (out_logits o) = length features /\
    Forall (fun row => length row = V self) (out_logits o).
Proof.
  intros Hinv Hx.
  destruct (sample_input_shape self w features st bias_fits_vocab Hstart
              start_in_vocab k s Hinv) as [x' [Hx' Hxl]].
  rewrite Hx in Hx'. injection Hx' as <-.
  destruct Hinv as (Hh & Hc & _).
  destruct (attention_shape self w features Hfeat (sprev_h s) Hh) as [Hctx _].
  unfold sample_forward, step_from. rewrite Hx. cbn [rbind].
  destruct (attention_forward _ _ _ _ _ _) as [ctx alpha]. cbn [fst] in Hctx.
  pose proof (select_context_length self w features (sprev_h s) ctx Hh Hctx)
    as Hsel.
  destruct (cell_forward_shape self w features Hcell x (sprev_h s) (sprev_c s)
              (select_context self w (sprev_h s) ctx) Hxl Hh Hc Hsel)
    as [h1 [c1 [Hcf [Hh1 _]]]].
  rewrite Hcf. eexists. split; [reflexivity|].
  cbn [out_h out_c out_alpha out_logits].
  split; [repeat split|]. split.
  - assert (HV : 0 < length (W_embed w)) by lia.
    pose proof (sample_decode_shape self w features bias_fits_vocab HV x h1
                  (select_context self w (sprev_h s) ctx) Hxl Hh1 Hsel)
      as [Hlen _].
    unfold argmax in Hlen. rewrite length_map in Hlen. exact Hlen.
  - apply sample_decode_width.
Qed.

(** the invariant of the loop of lines 202-237, with the inputs and the
    outputs of the steps *)
Lemma sample_trace_inv (len : nat) :
  forall (k : nat) (s : sample_state),
    sampler_inv self w (length features) k s ->
    exists tr s1,
      sample_trace self w features (project_feature features (W_proj_x w))
        (seq k len) s = Ok tr /\
      for_loop (sample_step self w features
                  (project_feature features (W_proj_x w))) (seq k len) s
      = Ok s1 /\
      sampler_inv self w (length features) (k + len) s1 /\
      length tr = len /\
      sampled_word_list s1
      = sampled_word_list s ++ map (fun xo => argmax (out_logits (snd xo))) tr /\
      (forall x o, nth_error tr 0 = Some (x, o) ->
         sample_input self w (length features) k s = Ok x /\
         step_from self w features x (sprev_h s) (sprev_c s) o) /\
      (forall t x o x' o',
         nth_error tr t = Some (x, o) -> nth_error tr (S t) = Some (x', o') ->
         word_embedding_forward (argmax (out_logits o)) (W_embed w) = Ok x' /\
         step_from self w features x' (out_h o) (out_c o) o') /\
      Forall (fun xo => length (out_logits (snd xo)) = length features /\
                        Forall (fun row => length row = V self)
                          (out_logits (snd xo))) tr.
Proof.
  induction len as [|len IH]; intros k s Hinv.
  - exists [], s. cbn [seq sample_trace for_loop map length].
    rewrite Nat.add_0_r, app_nil_r.
    split; [reflexivity|]. split; [reflexivity|]. split; [exact Hinv|].
    split; [reflexivity|]. split; [reflexivity|].
    split; [intros x o H0; discriminate|].
    split; [intros t x o x' o' H0; destruct t; discriminate|].
    constructor.
  - destruct (sample_input_shape self w features st bias_fits_vocab Hstart
                start_in_vocab k s Hinv) as [x [Hx _]].
    destruct (sample_forward_from k s x Hinv Hx) as (o & Ho & Hfrom & Hol & Hwid).
    destruct (sample_step_inv self w features st Hcell Hfeat bias_fits_vocab
                Hstart start_in_vocab k s Hinv) as [s' [Hstep Hinv']].
    assert (Hs' : s' = {| sprev_h := out_h o; sprev_c := out_c o;
                          sampled_word := Some (argmax (out_logits o));
                          sampled_word_list :=
                            sampled_word_list s ++ [argmax (out_logits o)];
                          salpha_list := salpha_list s ++ [out_alpha o] |}).
    { unfold sample_step in Hstep. rewrite Ho in Hstep. cbn [rbind] in Hstep.
      injection Hstep as <-. reflexivity. }
    destruct (IH (S k) s' Hinv')
      as (tr & s1 & Htr & Hloop & Hinv1 & Hlen & Hwl & Hfirst & Hnext & Hall).
    exists ((x, o) :: tr), s1.
    cbn [seq sample_trace for_loop]. rewrite Hx, Ho, Hstep. cbn [rbind].
    rewrite Htr, Hloop. cbn [rbind].
    split; [reflexivity|]. split; [reflexivity|].
    split; [replace (k + S len) with (S k + len) by lia; exact Hinv1|].
    split; [cbn; congruence|].
    split.
    { rewrite Hwl, Hs'. cbn [sampled_word_list map snd].
      rewrite <- app_assoc. reflexivity. }
    split.
    { intros x0 o0 [= <- <-]. split; [reflexivity | exact Hfrom]. }
    split.
    { intros t x1 o1 x2 o2 H1 H2. destruct t as [|t].
      - cbn [nth_error] in H1, H2. injection H1 as <- <-.
        destruct (Hfirst x2 o2 H2) as [Hin2 Hfrom2].
        rewrite Hs' in Hin2, Hfrom2.
        cbn [sprev_h sprev_c] in Hfrom2. split; [|exact Hfrom2].
        unfold sample_input, sampler_words in Hin2.
        cbn [Nat.eqb sampled_word rbind] in Hin2. exact Hin2.
      - cbn [nth_error] in H1, H2. exact (Hnext t x1 o1 x2 o2 H1 H2). }
    constructor; [|exact Hall]. cbn [snd]. split; assumption.
Qed.

End GreedyTrace.

(** C8.  A sampler that is given a start token, variables of the shapes
    of [__init__] and features that fit its placeholder runs its [max_len]
    steps as follows.  The input of step 0 is the embedding row of the start
    token, once for every image of the batch; the input of every later step
    is the embedding of the words selected at the step before.  Each step
    hands its input, with the state the step before left, to the cell and
    to the decoder, which gives one row of [V] logits for every image; the
    word selected for an image is an index into its row with no greater
    logit in the row, and it is the entry of the step in the caption
    returned for the image.  Nothing is drawn anywhere. *)
Theorem greedy_decoding :
  forall (E : Engine) (OE : OrderedEngine E) (self : Config) (w : Weights)
         (features : ten3) (max_len : nat) (st : Z),
    cell_type self = "rnn" \/ cell_type self = "lstm" ->
    _start self = Some st ->
    (0 <= st < Z.of_nat (V self))%Z ->
    weights_shaped self w = true ->
    0 < M self ->
    features_fit self features = true ->
    0 < max_len ->
    exists tr alphas captions e,
      sampler_trace self w features max_len = Ok tr /\
      length tr = max_len /\
      build_sampler self w features max_len = Ok (alphas, captions) /\
      nth_error (W_embed w) (Z.to_nat st) = Some e /\
      (exists o,
          nth_error tr 0 = Some (repeat e (length features), o) /\
          step_from self w features (repeat e (length features))
            (sprev_h (sample_init w features))
            (sprev_c (sample_init w features)) o) /\
      (forall t x o x' o',
          nth_error tr t = Some (x, o) -> nth_error tr (S t) = Some (x', o') ->
          word_embedding_forward (argmax (out_logits o)) (W_embed w) = Ok x' /\
          step_from self w features x' (out_h o) (out_c o) o') /\
      (forall t x o,
          nth_error tr t = Some (x, o) ->
          length (out_logits o) = length features /\
          Forall (fun row => length row = V self) (out_logits o) /\
          forall n row,
            nth_error (out_logits o) n = Some row ->
            exists i caption,
              i < V self /\
              (forall y, In y row -> sltb (nth i row s0) y = false) /\
              nth_error captions n = Some caption /\
              nth_error caption t = Some (Z.of_nat i)).
Proof.
  intros E OE self w features max_len st Hcell Hstart Hst Hw HM Hfit Hlen.
  destruct (weights_shaped_vocab self w Hw) as [HWe Hb2V].
  pose proof (has_shape_ncols _ _ _ (weights_shaped_decode self w Hw) HM) as HW2.
  pose proof (features_fit_locations self features Hfit) as Hfeat.
  assert (Hb2 : length (b2_decode w) <= length (W_embed w)) by lia.
  destruct (sample_trace_inv self w features st Hcell Hfeat HWe Hb2V HW2 Hstart
              Hst max_len 0 (sample_init w features))
    as (tr & s1 & Htr & Hloop & Hinv & Hltr & Hwl & Hfirst & Hnext & Hall).
  { apply sample_init_inv. exact Hb2. }
  cbn [Nat.add] in Hinv. cbn [sample_init sampled_word_list app] in Hwl.
  destruct Hinv as (_ & _ & Hwlen & Hallen & Hws & _ & _).
  destruct (pack_transpose_returns (salpha_list s1)) as [alphas Ha].
  { intros Hnil. rewrite Hnil in Hallen. cbn in Hallen. lia. }
  destruct (pack_transpose_returns (sampled_word_list s1)) as [captions Hc].
  { intros Hnil. rewrite Hnil in Hwlen. cbn in Hwlen. lia. }
  assert (He : exists e, embed (W_embed w) st = Ok e /\
                         nth_error (W_embed w) (Z.to_nat st) = Some e).
  { unfold embed. destruct (st <? 0)%Z eqn:Hneg; [apply Z.ltb_lt in Hneg; lia|].
    destruct (nth_error (W_embed w) (Z.to_nat st)) as [e|] eqn:Hrow.
    - exists e. split; reflexivity.
    - apply nth_error_None in Hrow. lia. }
  destruct He as (e & He & Hrow).
  exists tr, alphas, captions, e.
  split; [exact Htr|]. split; [exact Hltr|]. split.
  { unfold build_sampler, sample_unroll. rewrite Hloop. cbn [rbind].
    rewrite Ha. cbn [rbind]. rewrite Hc. reflexivity. }
  split; [exact Hrow|]. split.
  { destruct tr as [|[x0 o0] tr']; [cbn in Hltr; lia|].
    destruct (Hfirst x0 o0 eq_refl) as [Hin0 Hfrom0].
    unfold sample_input, sampler_words in Hin0. cbn [Nat.eqb] in Hin0.
    rewrite Hstart in Hin0. cbn [fill rbind] in Hin0.
    rewrite (embed_repeat (W_embed w) st e (length features) He) in Hin0.
    injection Hin0 as <-. exists o0. split; [reflexivity | exact Hfrom0]. }
  split; [exact Hnext|].
  intros t x o Ht.
  rewrite List.Forall_forall in Hall.
  destruct (Hall (x, o) (nth_error_In _ _ Ht)) as [Hrows Hwidth].
  cbn [snd] in Hrows, Hwidth.
  split; [exact Hrows|]. split; [exact Hwidth|].
  intros n row Hn.
  assert (HrowV : length row = V self).
  { rewrite List.Forall_forall in Hwidth. apply Hwidth.
    eapply nth_error_In. exact Hn. }
  assert (Hne : row <> []).
  { intros ->. cbn in HrowV. lia. }
  destruct (argmax_row_greatest row Hne) as [Hi Hgreatest].
  destruct (pack_transpose_nth (length features) (sampled_word_list s1) captions
              Hc) with (t := t) (s := argmax (out_logits o)) (n := n)
                       (a := Z.of_nat (argmax_row row))
    as (caption & Hcap & Hentry).
  { eapply List.Forall_impl; [|exact Hws]. intros ws [Hwsl _]. exact Hwsl. }
  { rewrite Hwl, nth_error_map, Ht. reflexivity. }
  { unfold argmax. rewrite nth_error_map, Hn. reflexivity. }
  exists (argmax_row row), caption.
  split; [lia|]. split; [exact Hgreatest|]. split; assumption.
Qed.

Lemma greedy_decoding_witness :
  exists tr alphas captions e,
    sampler_trace (scenario "lstm" true true 0 true false)
      (zero_weights (scenario "lstm" true true 0 true false)) one_image 3 = Ok tr /\
    length tr = 3 /\
    build_sampler (scenario "lstm" true true 0 true false)
      (zero_weights (scenario "lstm" true true 0 true false)) one_image 3
    = Ok (alphas, captions) /\
    nth_error (W_embed (zero_weights (scenario "lstm" true true 0 true false))) 1
    = Some e /\
    (exists o,
        nth_error tr 0 = Some (repeat e 1, o) /\
        step_from (scenario "lstm" true true 0 true false)
          (zero_weights (scenario "lstm" true true 0 true false)) one_image
          (repeat e 1)
          (sprev_h (sample_init
                      (zero_weights (scenario "lstm" true true 0 true false))
                      one_image))
          (sprev_c (sample_init
                      (zero_weights (scenario "lstm" true true 0 true false))
                      one_image)) o) /\
    (forall t x o x' o',
        nth_error tr t = Some (x, o) -> nth_error tr (S t) = Some (x', o') ->
        word_embedding_forward (argmax (out_logits o))
          (W_embed (zero_weights (scenario "lstm" true true 0 true false)))
        = Ok x' /\
        step_from (scenario "lstm" true true 0 true false)
          (zero_weights (scenario "lstm" true true 0 true false)) one_image
          x' (out_h o) (out_c o) o') /\
    (forall t x o,
        nth_error tr t = Some (x, o) ->
        length (out_logits o) = 1 /\
        Forall (fun row => length row = 4) (out_logits o) /\
        forall n row,
          nth_error (out_logits o) n = Some row ->
          exists i caption,
            i < 4 /\
            (forall y, In y row -> sltb (nth i row s0) y = false) /\
            nth_error captions n = Some caption /\
            nth_error caption t = Some (Z.of_nat i)).
Proof.
  apply (greedy_decoding REngine REngine_ordered
           (scenario "lstm" true true 0 true false)
           (zero_weights (scenario "lstm" true true 0 true false)) one_image 3
           1%Z).
  - right. reflexivity.
  - reflexivity.
  - cbn. lia.
  - reflexivity.
  - cbn. lia.
  - reflexivity.
  - lia.
Defined.
